(** * PageRank: a shallow embedding of [pagerank.py]

    The four functions of the program ([crawl], [transition_model],
    [sample_pagerank], [iterate_pagerank]) are embedded as computations in a
    small state-and-exception monad over a world made of
    - a heap of Python dict objects (the corpus, and the tables the functions
      build and update in place), and
    - the random source consumed by [random.choice] and [random.choices].

    Arithmetic is kept abstract behind the [Arith] interface, with two
    instances: IEEE binary64 ([float], what CPython computes with) and exact
    rationals ([Q], the arithmetic the algebraic identities are about). *)

From Stdlib Require Import ZArith QArith Qabs Floats Lia Lqa.
From stdpp Require Import gmap strings list sorting.

Set Default Proof Using "Type".
Local Open Scope Z_scope.

(** ** Numbers *)

(** The operations the program applies to Python floats. [of_Z] is the
    conversion of an int operand in mixed arithmetic; [isfinite] is
    [math.isfinite]. *)
Class Arith (num : Type) := {
  of_Z : Z → num;
  add : num → num → num;
  sub : num → num → num;
  mul : num → num → num;
  div : num → num → num;
  abs : num → num;
  ltb : num → num → bool;
  leb : num → num → bool;
  isfinite : num → bool
}.

Definition Qltb (x y : Q) : bool := if Qlt_le_dec x y then true else false.

#[export] Instance Q_arith : Arith Q := {
  of_Z := inject_Z;
  add := Qplus;
  sub := Qminus;
  mul := Qmult;
  div := Qdiv;
  abs := Qabs;
  ltb := Qltb;
  leb := Qle_bool;
  isfinite := λ _, true
}.

(** int to float, as CPython converts an int operand: exact up to 2^53 in
    magnitude, and beyond that the nearest double, ties to even. An int
    past the largest double becomes an infinity here, where CPython
    raises [OverflowError]; no page or sample count gets there. *)
Definition float_of_Z (z : Z) : float :=
  if (Z.abs z <=? 2 ^ 53)%Z then
    if (0 <=? z)%Z then PrimFloat.of_uint63 (Uint63.of_Z z)
    else PrimFloat.opp (PrimFloat.of_uint63 (Uint63.of_Z (- z)))
  else SF2Prim (binary_normalize prec emax z 0 false).

#[export] Instance float_arith : Arith float := {
  of_Z := float_of_Z;
  add := PrimFloat.add;
  sub := PrimFloat.sub;
  mul := PrimFloat.mul;
  div := PrimFloat.div;
  abs := PrimFloat.abs;
  ltb := PrimFloat.ltb;
  leb := PrimFloat.leb;
  isfinite := PrimFloat.is_finite
}.

(** ** Python dicts: insertion-ordered association lists *)

Definition dict (V : Type) := list (string * V).

Section Dict.
Context {V : Type}.

(** [d[k]] *)
Fixpoint dict_get (k : string) (d : dict V) : option V :=
  match d with
  | [] => None
  | (k', v) :: d' => if decide (k = k') then Some v else dict_get k d'
  end.

(** [d[k] = v]: overwrite in place, or append a new key at the end. *)
Fixpoint dict_set (k : string) (v : V) (d : dict V) : dict V :=
  match d with
  | [] => [(k, v)]
  | (k', v') :: d' =>
      if decide (k = k') then (k', v) :: d' else (k', v') :: dict_set k v d'
  end.

Definition dict_keys (d : dict V) : list string := d.*1.
Definition dict_values (d : dict V) : list V := d.*2.

(** The dict whose keys are [ks], in that order, with value [f k] at [k]. *)
Definition tabulate (f : string → V) (ks : list string) : dict V :=
  (λ k, (k, f k)) <$> ks.

End Dict.

(** ** Values, objects, worlds *)

(** [s.endswith(suffix)] *)
Definition endswith (s suffix : string) : bool :=
  let n := String.length s in
  let m := String.length suffix in
  (m <=? n)%nat && String.eqb (String.substring (n - m) m s) suffix.

Inductive exn :=
  | KeyError | TypeError | IndexError | ValueError | ZeroDivisionError
  | DanglingReference.

Inductive outcome (A : Type) :=
  | Ok (a : A)
  | Raise (e : exn)
  | OutOfFuel.
Arguments Ok {A} a.
Arguments Raise {A} e.
Arguments OutOfFuel {A}.

Definition loc := nat.

Section Model.
Context {num : Type} `{Arith num}.

(** A Python number: an int or a float. *)
Inductive number :=
  | Int (z : Z)
  | Float (x : num).

Definition to_float (a : number) : num :=
  match a with Int z => of_Z z | Float x => x end.

Definition py_add (a b : number) : number :=
  match a, b with
  | Int x, Int y => Int (x + y)
  | _, _ => Float (add (to_float a) (to_float b))
  end.

Definition py_sub (a b : number) : number :=
  match a, b with
  | Int x, Int y => Int (x - y)
  | _, _ => Float (sub (to_float a) (to_float b))
  end.

Definition py_mul (a b : number) : number :=
  match a, b with
  | Int x, Int y => Int (x * y)
  | _, _ => Float (mul (to_float a) (to_float b))
  end.

Definition py_abs (a : number) : number :=
  match a with Int x => Int (Z.abs x) | Float x => Float (abs x) end.

Definition py_lt (a b : number) : bool :=
  match a, b with
  | Int x, Int y => (x <? y)%Z
  | _, _ => ltb (to_float a) (to_float b)
  end.

(** The literal [0.001]: the double nearest to 1/1000, which is what the
    correctly rounded quotient of 1 by 1000 is. *)
Definition threshold : number := Float (div (of_Z 1) (of_Z 1000)).

(** The objects the program allocates: a corpus (page to set of pages) or
    a table (page to number). *)
Inductive obj :=
  | OCorpus (c : dict (gset string))
  | OTable (t : dict number).

Record world := World {
  heap : list obj;
  rng : nat → Z   (* the raw draws still to come *)
}.

Definition M (A : Type) : Type := world → outcome A * world.

Definition ret {A} (a : A) : M A := λ w, (Ok a, w).

Definition bind {A B} (m : M A) (k : A → M B) : M B := λ w,
  match m w with
  | (Ok a, w') => k a w'
  | (Raise e, w') => (Raise e, w')
  | (OutOfFuel, w') => (OutOfFuel, w')
  end.

Definition raise {A} (e : exn) : M A := λ w, (Raise e, w).

End Model.

Arguments number : clear implicits.
Arguments obj : clear implicits.
Arguments world : clear implicits.
Arguments M : clear implicits.

Notation "'let*' x ':=' c1 'in' c2" := (bind c1 (λ x, c2))
  (at level 10, x pattern, c1 at level 100, c2 at level 200,
   format "'[v' 'let*'  x  ':='  c1  'in' '/' c2 ']'").

(** ** Heap primitives and the Python operations on dict objects *)

Section Primitives.
Context {num : Type} `{Arith num}.

(** [dict()] and friends: a new object at a fresh location. *)
Definition new_object (o : obj num) : M num loc := λ w,
  (Ok (length (heap w)), World (heap w ++ [o]) (rng w)).

Definition load (l : loc) : M num (obj num) := λ w,
  match heap w !! l with
  | Some o => (Ok o, w)
  | None => (Raise DanglingReference, w)
  end.

Definition store (l : loc) (o : obj num) : M num unit := λ w,
  (Ok tt, World (<[l := o]> (heap w)) (rng w)).

(** One raw draw from the random source. *)
Definition draw : M num Z := λ w,
  (Ok (rng w 0%nat), World (heap w) (λ i, rng w (S i))).

Definition keys_of (o : obj num) : list string :=
  match o with OCorpus c => dict_keys c | OTable t => dict_keys t end.

(** [list(d)], the keys a [for k in d] loop runs over. *)
Definition keys (l : loc) : M num (list string) :=
  let* o := load l in ret (keys_of o).

(** [len(d)] *)
Definition len (l : loc) : M num Z :=
  let* ks := keys l in ret (Z.of_nat (length ks)).

(** [corpus[k]] where the values are sets of pages *)
Definition getitem_set (l : loc) (k : string) : M num (gset string) :=
  let* o := load l in
  match o with
  | OCorpus c =>
      match dict_get k c with Some s => ret s | None => raise KeyError end
  | OTable _ => raise TypeError
  end.

(** [pages[k] = s] *)
Definition setitem_set (l : loc) (k : string) (s : gset string) : M num unit :=
  let* o := load l in
  match o with
  | OCorpus c => store l (OCorpus (dict_set k s c))
  | OTable _ => raise TypeError
  end.

(** [table[k]] where the values are numbers *)
Definition getitem (l : loc) (k : string) : M num (number num) :=
  let* o := load l in
  match o with
  | OTable t =>
      match dict_get k t with Some v => ret v | None => raise KeyError end
  | OCorpus _ => raise TypeError
  end.

(** [table[k] = v] *)
Definition setitem (l : loc) (k : string) (v : number num) : M num unit :=
  let* o := load l in
  match o with
  | OTable t => store l (OTable (dict_set k v t))
  | OCorpus _ => raise TypeError
  end.

(** [table.values()] *)
Definition values (l : loc) : M num (list (number num)) :=
  let* o := load l in
  match o with
  | OTable t => ret (dict_values t)
  | OCorpus _ => raise TypeError
  end.

(** [a / n] with an int divisor [n]: true division, always a float. For
    two ints CPython returns the correctly rounded quotient; dividing the
    converted operands, as here, is that quotient as long as both ints are
    at most 2^53 in magnitude (it is CPython's own fast path), which
    covers every count of pages, links and visits. *)
Definition truediv (a : number num) (n : Z) : M num (number num) :=
  if (n =? 0)%Z then raise ZeroDivisionError
  else ret (Float (div (to_float a) (of_Z n))).

(** [for x in xs: body], with the local variables the body rebinds
    threaded as [s]. *)
Fixpoint for_each {A S : Type} (xs : list A) (body : A → S → M num S) (s : S)
    : M num S :=
  match xs with
  | [] => ret s
  | x :: xs' => let* s' := body x s in for_each xs' body s'
  end.

(** [while True: body], where the body answers [Some a] when it executes
    [return a]. *)
Fixpoint while_true {A : Type} (fuel : nat) (body : M num (option A)) : M num A :=
  match fuel with
  | O => λ w, (OutOfFuel, w)
  | S fuel' =>
      let* r := body in
      match r with
      | Some a => ret a
      | None => while_true fuel' body
      end
  end.

(** [range(n)] *)
Definition range (n : Z) : list Z := Z.of_nat <$> seq 0 (Z.to_nat n).

(** *** The [random] module *)

(** [random.random()]: a 53-bit integer scaled into [0, 1). *)
Definition random : M num num :=
  let* r := draw in
  ret (div (of_Z (r mod 2 ^ 53)) (of_Z (2 ^ 53))).

(** [random.choice(seq)]: the element at a drawn index; the index is the
    raw draw reduced modulo the length. An empty sequence raises. *)
Definition random_choice {A : Type} (xs : list A) : M num A :=
  match xs with
  | [] => raise IndexError
  | x0 :: _ =>
      let* r := draw in
      ret (nth (Z.to_nat (r mod Z.of_nat (length xs))) xs x0)
  end.

(** [itertools.accumulate(weights)] *)
Fixpoint accumulate_from (acc : num) (ws : list num) : list num :=
  match ws with
  | [] => []
  | x :: ws' => let acc' := add acc x in acc' :: accumulate_from acc' ws'
  end.

Definition accumulate (ws : list num) : list num :=
  match ws with
  | [] => []
  | x :: ws' => x :: accumulate_from x ws'
  end.

(** The [while lo < hi] loop of [bisect_right]: binary search for the
    insertion point of [x] in [cum]. [span] bounds the number of rounds;
    [hi - lo] rounds are always enough. *)
Fixpoint bisect_loop (span : nat) (cum : list num) (x : num) (lo hi : nat) : nat :=
  match span with
  | O => lo
  | S span' =>
      if (lo <? hi)%nat then
        let mid := ((lo + hi) / 2)%nat in
        if ltb x (nth mid cum (of_Z 0)) then bisect_loop span' cum x lo mid
        else bisect_loop span' cum x (mid + 1) hi
      else lo
  end.

(** [bisect(cum, x, 0, hi)] *)
Definition bisect (cum : list num) (x : num) (hi : nat) : nat :=
  bisect_loop hi cum x 0 hi.

(** [random.choices(population, weights=weights, k=1)[0]]: the weights are
    accumulated, their total must be positive and finite, and the element
    chosen is the one [bisect] finds for [random() * total] among the
    cumulative weights but the last. *)
Definition random_choices (population : list string) (weights : list (number num))
    : M num string :=
  let n := length population in
  let cum_weights := accumulate (to_float <$> weights) in
  if negb (length cum_weights =? n)%nat then raise ValueError else
  match population with
  | [] => raise IndexError
  | x0 :: _ =>
      let total := add (List.last cum_weights (of_Z 0)) (of_Z 0) in
      if leb total (of_Z 0) then raise ValueError else
      if negb (isfinite total) then raise ValueError else
      let* u := random in
      ret (nth (bisect cum_weights (mul u total) (n - 1)) population x0)
  end.

End Primitives.

(** ** The program *)

Section Program.
Context {num : Type} `{Arith num}.

(** [re.findall(pattern, contents)] for the anchor-tag pattern of the
    source, which captures the quoted value of each href attribute: the
    link extraction belongs to the regular-expression library. *)
Variable findall_href : string → list string.

(** [crawl(directory)]. The directory is what [os.listdir] and [f.read()]
    give: the file names with their contents. *)
Definition crawl (directory : list (string * string)) : M num loc :=
  let* pages := new_object (OCorpus []) in
  let* _ := for_each directory (λ '(filename, contents) _,
    if negb (endswith filename ".html") then ret tt else
    let links := findall_href contents in
    setitem_set pages filename (list_to_set links ∖ {[filename]})) tt in
  let* filenames := keys pages in
  let* _ := for_each filenames (λ filename _,
    let* linked := getitem_set pages filename in
    let* present := keys pages in
    setitem_set pages filename (filter (λ link, link ∈ present) linked)) tt in
  ret pages.

(** [transition_model(corpus, page, damping_factor)] *)
Definition transition_model (corpus : loc) (page : string) (damping_factor : num)
    : M num loc :=
  let* cont := new_object (OTable []) in
  let* links := getitem_set corpus page in
  let link_exists := Z.of_nat (size links) in
  if negb (link_exists =? 0)%Z then
    let* pages := keys corpus in
    let* _ := for_each pages (λ each_page _,
      let* n := len corpus in
      let* p := truediv (Float (sub (of_Z 1) damping_factor)) n in
      setitem cont each_page p) tt in
    let* outbound := getitem_set corpus page in
    let* _ := for_each (elements outbound) (λ link _,
      let* old := getitem cont link in
      let* outbound' := getitem_set corpus page in
      let* p := truediv (Float damping_factor) (Z.of_nat (size outbound')) in
      setitem cont link (py_add old p)) tt in
    ret cont
  else
    let* pages := keys corpus in
    let* _ := for_each pages (λ page _,
      let* n := len corpus in
      let* p := truediv (Int 1) n in
      setitem cont page p) tt in
    ret cont.

(** The body of the [for i in range(n)] loop of [sample_pagerank]: one
    step of the walk from [page], counted in [cont]. *)
Definition sample_step (corpus cont : loc) (damping_factor : num) (i : Z)
    (page : string) : M num string :=
  let* sample := transition_model corpus page damping_factor in
  let* population := keys sample in
  let* weights := values sample in
  let* page := random_choices population weights in
  let* c := getitem cont page in
  let* _ := setitem cont page (py_add c (Int 1)) in
  ret page.

(** [sample_pagerank(corpus, damping_factor, n)] *)
Definition sample_pagerank (corpus : loc) (damping_factor : num) (n : Z)
    : M num loc :=
  let* cont := new_object (OTable []) in
  let* pages := keys corpus in
  let* _ := for_each pages (λ key _, setitem cont key (Int 0)) tt in
  let* pages := keys corpus in
  let* page := random_choice pages in
  let* c := getitem cont page in
  let* _ := setitem cont page (py_add c (Int 1)) in
  let* _ := for_each (range n) (sample_step corpus cont damping_factor) page in
  let* pages := keys cont in
  let* _ := for_each pages (λ key _,
    let* c := getitem cont key in
    let* p := truediv c n in
    setitem cont key p) tt in
  ret cont.

(** The body of the [for page in corpus] loop of [iterate_pagerank]:
    what [page] adds to [sum] for [key]. *)
Definition contribution (corpus ans : loc) (key page : string) (sum : number num)
    : M num (number num) :=
  let* links := getitem_set corpus page in
  if bool_decide (key ∈ links) then
    let* r := getitem ans page in
    let* links' := getitem_set corpus page in
    let* c := truediv r (Z.of_nat (size links')) in
    ret (py_add sum c)
  else
    let* links' := getitem_set corpus page in
    if (Z.of_nat (size links') =? 0)%Z then
      let* r := getitem ans page in
      let* n := len corpus in
      let* c := truediv r n in
      ret (py_add sum c)
    else ret sum.

(** The body of the [for key in corpus] loop: the new rank of [key],
    compared with and then written over [ans[key]]. *)
Definition update_rank (corpus ans : loc) (N : Z) (d : num) (key : string)
    (count : Z) : M num Z :=
  let* new := truediv (Float (sub (of_Z 1) d)) N in
  let sum := Int 0 in
  let* pages := keys corpus in
  let* sum := for_each pages (contribution corpus ans key) sum in
  let sum := py_mul (Float d) sum in
  let new := py_add new sum in
  let* old := getitem ans key in
  let count :=
    if py_lt (py_abs (py_sub old new)) threshold then (count + 1)%Z else count in
  let* _ := setitem ans key new in
  ret count.

(** One pass of the [while True] loop. *)
Definition update_pass (corpus ans : loc) (N : Z) (d : num) : M num (option loc) :=
  let count := 0%Z in
  let* pages := keys corpus in
  let* count := for_each pages (update_rank corpus ans N d) count in
  if (count =? N)%Z then ret (Some ans) else ret None.

(** [iterate_pagerank(corpus, damping_factor)]; [fuel] bounds the number
    of passes of the [while True] loop. *)
Definition iterate_pagerank (fuel : nat) (corpus : loc) (damping_factor : num)
    : M num loc :=
  let* ans := new_object (OTable []) in
  let* N := len corpus in
  let d := damping_factor in
  let* pages := keys corpus in
  let* _ := for_each pages (λ key _,
    let* p := truediv (Int 1) N in
    setitem ans key p) tt in
  while_true fuel (update_pass corpus ans N d).

End Program.

(** * Specification-level definitions

    The functions on tables that the computations above are shown to
    implement, the predicates the statements are phrased with, and the
    concrete inputs used as examples. *)

Section Specification.
Context {num : Type} `{Arith num}.
Implicit Types (corpus : dict (gset string)) (ans : dict (number num)).
Implicit Types (cnt : string → Z) (w : world num).

(** [frames n m]: whatever its outcome (a value, an exception, no fuel
    left), [m] leaves the first [n] objects of the heap as they were and
    frees nothing. *)
Definition frames {A} (n : nat) (m : M num A) : Prop :=
  ∀ w, (n ≤ length (heap w))%nat →
    take n (heap (m w).2) = take n (heap w)
    ∧ (length (heap w) ≤ length (heap (m w).2))%nat.

(** The invariants of a corpus that the transition model relies on: keys
    are distinct (it is a dict) and every link leads to a page of the
    corpus. *)
Definition wf_corpus (corpus : dict (gset string)) : Prop :=
  NoDup (dict_keys corpus)
  ∧ ∀ page links link,
      dict_get page corpus = Some links → link ∈ links → link ∈ dict_keys corpus.

(** [len(corpus)] *)
Definition page_count (corpus : dict (gset string)) : Z :=
  Z.of_nat (length (dict_keys corpus)).

(** The table [transition_model] builds for a page whose outbound set is
    [links]. *)
Definition distribution (corpus : dict (gset string)) (links : gset string)
    (d : num) : dict (number num) :=
  let N := page_count corpus in
  let L := Z.of_nat (size links) in
  if (L =? 0)%Z then
    tabulate (λ _, Float (div (of_Z 1) (of_Z N))) (dict_keys corpus)
  else
    tabulate (λ k,
      if bool_decide (k ∈ links)
      then Float (add (div (sub (of_Z 1) d) (of_Z N)) (div d (of_Z L)))
      else Float (div (sub (of_Z 1) d) (of_Z N))) (dict_keys corpus).

(** [ans[page]], for a page the table has. *)
Definition rank_of ans (page : string) : number num :=
  default (Int 0) (dict_get page ans).

(** [corpus[page]], for a page of the corpus. *)
Definition links_of corpus (page : string) : gset string :=
  default ∅ (dict_get page corpus).

(** What [page] adds to [sum] when the rank of [key] is recomputed from
    the table [ans]. *)
Definition contribute corpus ans (key : string) (sum : number num)
    (page : string) : number num :=
  let links := links_of corpus page in
  if bool_decide (key ∈ links) then
    py_add sum (Float (div (to_float (rank_of ans page))
                           (of_Z (Z.of_nat (size links)))))
  else if (Z.of_nat (size links) =? 0)%Z then
    py_add sum (Float (div (to_float (rank_of ans page))
                           (of_Z (page_count corpus))))
  else sum.

(** The value [new] that the loop body computes for [key] from [ans]. *)
Definition new_rank corpus (d : num) ans (key : string) : number num :=
  py_add (Float (div (sub (of_Z 1) d) (of_Z (page_count corpus))))
         (py_mul (Float d)
                 (fold_left (contribute corpus ans key) (dict_keys corpus) (Int 0))).

(** [abs(old - new) < 0.001] *)
Definition close_enough (old new : number num) : bool :=
  py_lt (py_abs (py_sub old new)) threshold.

(** One turn of the [for key in corpus] loop on the table and the
    counter. *)
Definition rank_step corpus (d : num) (st : dict (number num) * Z)
    (key : string) : dict (number num) * Z :=
  let new := new_rank corpus d st.1 key in
  (dict_set key new st.1,
   if close_enough (rank_of st.1 key) new then (st.2 + 1)%Z else st.2).

(** One pass of the [while True] loop: the table and the counter after
    the [for key in corpus] loop. *)
Definition rank_pass corpus (d : num) ans : dict (number num) * Z :=
  fold_left (rank_step corpus d) (dict_keys corpus) (ans, 0%Z).

(** At most [fuel] passes: whether a pass counted every page as close
    enough, and the table after the last pass made. *)
Fixpoint rank_iterate (fuel : nat) corpus (d : num) ans
    : bool * dict (number num) :=
  match fuel with
  | O => (false, ans)
  | S fuel' =>
      let st := rank_pass corpus d ans in
      if (st.2 =? page_count corpus)%Z then (true, st.1)
      else rank_iterate fuel' corpus d st.1
  end.

(** The table before the first pass: [1 / N] everywhere. *)
Definition initial_ranks corpus : dict (number num) :=
  tabulate (λ _, Float (div (of_Z 1) (of_Z (page_count corpus)))) (dict_keys corpus).

(** The table [ans] has an entry for every page of the corpus. *)
Definition covers corpus ans : Prop :=
  ∀ k, k ∈ dict_keys corpus → k ∈ dict_keys ans.

(** The table behind the reference a call returned. *)
Definition result_table (r : outcome loc * world num) : outcome (dict (number num)) :=
  match r.1 with
  | Ok l =>
      match heap r.2 !! l with
      | Some (OTable t) => Ok t
      | _ => Raise DanglingReference
      end
  | Raise e => Raise e
  | OutOfFuel => OutOfFuel
  end.



(** The table after [n] passes. *)
Definition passes (n : nat) corpus (d : num) ans : dict (number num) :=
  Nat.iter n (λ a, (rank_pass corpus d a).1) ans.

(** The world after one draw. *)
Definition after_draw w : world num := World (heap w) (λ i, rng w (S i)).

(** The total weight [random.choices] checks before it draws. *)
Definition total_weight (weights : list (number num)) : num :=
  add (List.last (accumulate (to_float <$> weights)) (of_Z 0)) (of_Z 0).

(** One more visit to [page]. *)
Definition bump (page : string) cnt : string → Z :=
  λ k, if decide (k = page) then (cnt k + 1)%Z else cnt k.

(** The visits counted over the pages [ks]. *)
Definition sumZ cnt (ks : list string) : Z := foldr (λ k acc, (cnt k + acc)%Z) 0%Z ks.

(** The table of visit counters. *)
Definition counters cnt (ks : list string) : dict (number num) :=
  tabulate (λ k, Int (cnt k)) ks.

(** [random.choices] accepts the weights of every transition table. *)
Definition positive_mass corpus (d : num) : Prop :=
  ∀ page links, dict_get page corpus = Some links →
    leb (total_weight (dict_values (distribution corpus links d))) (of_Z 0) = false
    ∧ isfinite (total_weight (dict_values (distribution corpus links d))) = true.

(** The state of the walk over a heap that began as [h]: the counters at
    [length h], the transition tables of earlier steps after them, the
    page the walk is at, and the visits counted so far. *)
Definition walking (h : list (obj num)) corpus (visits : Z) (page : string)
    (w : world num) : Prop :=
  ∃ cnt junk r,
    w = World (h ++ OTable (counters cnt (dict_keys corpus)) :: junk) r
    ∧ page ∈ dict_keys corpus
    ∧ (∀ k, 0 ≤ cnt k)%Z
    ∧ sumZ cnt (dict_keys corpus) = visits.

End Specification.

(** [sum(table.values())] *)
Definition sum_values {num : Type} `{Arith num} (t : dict (number num)) : number num :=
  fold_left py_add (dict_values t) (Int 0).

(** The sum of a list of rationals. *)
Definition Qsum (xs : list Q) : Q := fold_right Qplus 0%Q xs.

(** [filename.endswith(".html")] *)
Definition is_html (filename : string) : Prop := endswith filename ".html" = true.

#[local] Instance is_html_dec filename : Decision (is_html filename).
Proof. unfold is_html. apply _. Defined.

(** The pages of the corpus: the [.html] files, in directory order. *)
Definition html_names (directory : list (string * string)) : list string :=
  filter is_html directory.*1.

(** The links the first loop of [crawl] stores for a file: the extracted
    targets without the file itself. *)
Definition raw_links (findall_href : string → list string)
    (directory : list (string * string)) (filename : string) : gset string :=
  match dict_get filename directory with
  | Some contents => list_to_set (findall_href contents) ∖ {[filename]}
  | None => ∅
  end.

(** A check of [wf_corpus] that computes. *)
Definition wf_corpusb (corpus : dict (gset string)) : bool :=
  bool_decide (NoDup (dict_keys corpus))
  && forallb (λ entry, forallb (λ link, bool_decide (link ∈ dict_keys corpus))
                               (elements entry.2)) corpus.

(** The two-page corpus [{A: {B}, B: {}}] of the spec's example. *)
Definition corpus_AB : dict (gset string) := [("A", {["B"]}); ("B", ∅)]%string.

(** The same corpus with the sink listed first: [{B: {}, A: {B}}]. *)
Definition corpus_BA : dict (gset string) := [("B", ∅); ("A", {["B"]})]%string.

(** The one-page corpus [{A: {}}]. *)
Definition corpus_A : dict (gset string) := [("A", ∅)]%string.

(** Five pages: a and b link to the sink e, c links to a, d links to b. *)
Definition corpus_chain : dict (gset string) :=
  [("a", {["e"]}); ("b", {["e"]}); ("c", {["a"]}); ("d", {["b"]}); ("e", ∅)]%string.

(** Four pages: a links to d, b to a and d, c to a, d to c. *)
Definition corpus_swing : dict (gset string) :=
  [("a", {["d"]}); ("b", {["a"; "d"]}); ("c", {["a"]}); ("d", {["c"]})]%string.

(** No rank of the table is negative. *)
Definition nonneg_ranks (ans : dict (number Q)) : Prop :=
  ∀ p, (0 <= to_float (rank_of ans p))%Q.

(** [DAMPING = 0.85]: the double nearest to 85/100. *)
Definition DAMPING : float := 0x1.b333333333333p-1%float.

(** [SAMPLES = 10000] *)
Definition SAMPLES : Z := 10000.

(** A world holding the example corpus at location 0. *)
Definition world_AB (draws : nat → Z) : world float :=
  World [OCorpus corpus_AB] draws.

(** [z / 1000], as a double: the decimal literal with three places. *)
Definition milli (z : Z) : float := div (of_Z z) (of_Z 1000).

(** [lo < x < hi] *)
Definition between (lo x hi : float) : bool :=
  PrimFloat.ltb lo x && PrimFloat.ltb x hi.

(** A directory of three files, two of them pages, and a link extractor
    that finds three targets in the first page. *)
Definition sample_directory : list (string * string) :=
  [("1.html", "one"); ("2.html", "two"); ("notes.txt", "three")]%string.

Definition sample_findall (contents : string) : list string :=
  if String.eqb contents "one" then ["2.html"; "1.html"; "3.html"]%string else [].

(** A page whose only link leads outside the corpus. *)
Definition corpus_dangling : dict (gset string) := [("A", {["Z"]})]%string.

(** The example corpus in a world of exact arithmetic. *)
Definition world_AB_exact (draws : nat → Z) : world Q :=
  World [OCorpus corpus_AB] draws.

(** A directory without pages. *)
Definition notes_directory : list (string * string) :=
  [("notes.txt", "three")]%string.

(** ** The entry point *)

(** Computations that also print: the outcome comes with the lines written
    to standard output, which stay written when an exception is raised. *)
Definition MO (num A : Type) : Type :=
  world num → (outcome A * list string) * world num.

Section Printing.
Context {num : Type} `{Arith num}.

Definition ret_o {A} (a : A) : MO num A := λ w, ((Ok a, []), w).

Definition bind_o {A B} (m : MO num A) (k : A → MO num B) : MO num B := λ w,
  match m w with
  | ((Ok a, out), w') =>
      match k a w' with
      | ((o, out'), w'') => ((o, out ++ out'), w'')
      end
  | ((Raise e, out), w') => ((Raise e, out), w')
  | ((OutOfFuel, out), w') => ((OutOfFuel, out), w')
  end.

(** A computation that prints nothing. *)
Definition quiet {A} (m : M num A) : MO num A := λ w,
  match m w with (o, w') => ((o, []), w') end.

(** [print(line)] *)
Definition print (line : string) : MO num unit := λ w, ((Ok tt, [line]), w).

(** [for x in xs: body] *)
Fixpoint for_each_o {A : Type} (xs : list A) (body : A → MO num unit)
    : MO num unit :=
  match xs with
  | [] => ret_o tt
  | x :: xs' => bind_o (body x) (λ _, for_each_o xs' body)
  end.
End Printing.

Notation "'let+' x ':=' c1 'in' c2" := (bind_o c1 (λ x, c2))
  (at level 10, x pattern, c1 at level 100, c2 at level 200,
   format "'[v' 'let+'  x  ':='  c1  'in' '/' c2 ']'").

(** The order of [sorted] on page names: strings compare by their
    characters, from the first on. *)
Definition string_le (s1 s2 : string) : Prop := String.leb s1 s2 = true.

#[local] Instance string_le_dec s1 s2 : Decision (string_le s1 s2).
Proof. unfold string_le. apply _. Defined.

(** [sorted(pages)] *)
Definition sorted (pages : list string) : list string :=
  merge_sort string_le pages.

(** How a run of [main] ends: it falls off the end, or [sys.exit] stops it
    with a message. *)
Inductive exit_status :=
  | Finished
  | SystemExit (message : string).

Section Main.
(** The collaborators of [main] outside the program: the link extraction
    of [crawl], the directories of the file system (names and contents of
    the files), and the formatting of a rank with four decimals. *)
Variable findall_href : string → list string.
Variable listdir : string → list (string * string).
Variable format_4f : number float → string.

(** The line [main] prints for a page. *)
Definition rank_line (page : string) (rank : number float) : string :=
  String.append "  " (String.append page (String.append ": " (format_4f rank))).

(** [for page in sorted(ranks): print(...)] *)
Definition print_ranks (ranks : loc) : MO float unit :=
  let+ pages := quiet (keys ranks) in
  for_each_o (sorted pages) (λ page,
    let+ rank := quiet (getitem ranks page) in
    print (rank_line page rank)).

(** [main()], with [sys.argv] as [argv]; [fuel] bounds the passes of the
    solver. *)
Definition main (argv : list string) (fuel : nat) : MO float exit_status :=
  if negb (length argv =? 2)%nat then
    ret_o (SystemExit "Usage: python pagerank.py corpus")
  else
    let+ corpus := quiet (crawl findall_href (listdir (nth 1 argv ""%string))) in
    let+ ranks := quiet (sample_pagerank corpus DAMPING SAMPLES) in
    let+ _ := print "PageRank Results from Sampling (n = 10000)" in
    let+ _ := print_ranks ranks in
    let+ ranks := quiet (iterate_pagerank fuel corpus DAMPING) in
    let+ _ := print "PageRank Results from Iteration" in
    let+ _ := print_ranks ranks in
    ret_o Finished.
End Main.

(** The corpus [crawl] builds from a directory. *)
Definition crawled (findall_href : string → list string)
    (directory : list (string * string)) : dict (gset string) :=
  tabulate (λ f, filter (λ link, link ∈ html_names directory)
                        (raw_links findall_href directory f))
           (html_names directory).

(** A check of [positive_mass] that computes. *)
Definition positive_massb {num : Type} `{Arith num}
    (corpus : dict (gset string)) (d : num) : bool :=
  forallb (λ entry,
    negb (leb (total_weight (dict_values (distribution corpus entry.2 d))) (of_Z 0))
    && isfinite (total_weight (dict_values (distribution corpus entry.2 d))))
    corpus.

(** * Facts about dicts *)

Section DictFacts.
Context {V : Type}.
Implicit Types (d : dict V) (k : string) (v : V) (f g : string → V).

Lemma dict_get_set_eq k v d : dict_get k (dict_set k v d) = Some v.
Proof.
  induction d as [|[k' v'] d IH]; simpl.
  - by rewrite decide_True.
  - destruct (decide (k = k')) as [->|Hne]; simpl.
    + by rewrite decide_True.
    + by rewrite decide_False.
Qed.

Lemma dict_get_set_ne k k' v d :
  k ≠ k' → dict_get k' (dict_set k v d) = dict_get k' d.
Proof.
  intros Hne. induction d as [|[k0 v0] d IH]; simpl.
  - rewrite decide_False; [done | congruence].
  - destruct (decide (k = k0)) as [->|Hk]; simpl.
    + rewrite !decide_False; [done | congruence | congruence].
    + by rewrite IH.
Qed.

Lemma dict_get_Some_elem k v d : dict_get k d = Some v → k ∈ dict_keys d.
Proof.
  induction d as [|[k' v'] d IH]; simpl; [done|].
  destruct (decide (k = k')) as [->|Hne]; intros Hget.
  - apply list_elem_of_here.
  - apply list_elem_of_further. by apply IH.
Qed.

Lemma dict_get_is_Some k d : k ∈ dict_keys d → is_Some (dict_get k d).
Proof.
  induction d as [|[k' v'] d IH]; simpl.
  - intros Hin. by apply elem_of_nil in Hin.
  - intros Hin. destruct (decide (k = k')) as [->|Hne]; [by eexists|].
    apply elem_of_cons in Hin as [?|?]; [done | by apply IH].
Qed.

Lemma dict_keys_set k v d :
  k ∈ dict_keys d → dict_keys (dict_set k v d) = dict_keys d.
Proof.
  induction d as [|[k' v'] d IH]; simpl.
  - intros Hin. by apply elem_of_nil in Hin.
  - intros Hin. destruct (decide (k = k')) as [->|Hne]; [done|].
    apply elem_of_cons in Hin as [?|?]; [done|].
    unfold dict_keys in *. simpl. f_equal. by apply IH.
Qed.

Lemma dict_set_fresh k v d : k ∉ dict_keys d → dict_set k v d = d ++ [(k, v)].
Proof.
  induction d as [|[k' v'] d IH]; simpl; [done|].
  intros Hnin. apply not_elem_of_cons in Hnin as [Hne Hnin].
  rewrite decide_False by done. f_equal. by apply IH.
Qed.

Lemma dict_keys_tabulate f ks : dict_keys (tabulate f ks) = ks.
Proof.
  unfold dict_keys, tabulate. rewrite <- list_fmap_compose.
  induction ks as [|k ks IH]; simpl; [done | by f_equal].
Qed.

Lemma dict_get_tabulate f ks k :
  k ∈ ks → dict_get k (tabulate f ks) = Some (f k).
Proof.
  induction ks as [|k' ks IH]; simpl.
  - intros Hin. by apply elem_of_nil in Hin.
  - intros Hin. destruct (decide (k = k')) as [->|Hne]; [done|].
    apply elem_of_cons in Hin as [?|?]; [done | by apply IH].
Qed.

Lemma tabulate_ext f g ks :
  (∀ k, k ∈ ks → f k = g k) → tabulate f ks = tabulate g ks.
Proof.
  intros Hfg. unfold tabulate. apply list_fmap_ext.
  intros i k Hi. rewrite (Hfg k); [done|]. by eapply list_elem_of_lookup_2.
Qed.

Lemma tabulate_snoc f ks k : tabulate f (ks ++ [k]) = tabulate f ks ++ [(k, f k)].
Proof. unfold tabulate. by rewrite fmap_app. Qed.

Lemma dict_set_tabulate f ks k v :
  NoDup ks → k ∈ ks →
  dict_set k v (tabulate f ks)
  = tabulate (λ k', if decide (k' = k) then v else f k') ks.
Proof.
  induction ks as [|k' ks IH]; simpl.
  - intros _ Hin. by apply elem_of_nil in Hin.
  - intros Hnd Hin. apply NoDup_cons in Hnd as [Hnin Hnd].
    destruct (decide (k = k')) as [->|Hne].
    + rewrite decide_True by done. f_equal.
      apply tabulate_ext. intros k0 Hk0.
      rewrite decide_False; [done|]. intros ->. done.
    + rewrite decide_False by congruence. f_equal.
      apply elem_of_cons in Hin as [?|?]; [done | by apply IH].
Qed.

End DictFacts.

(** * Running computations *)

Section Run.
Context {num : Type} `{Arith num}.
Implicit Types (w : world num) (l : loc).

Lemma bind_ok {A B} (m : M num A) (k : A → M num B) w a w' :
  m w = (Ok a, w') → bind m k w = k a w'.
Proof. intros Hm. unfold bind. by rewrite Hm. Qed.

Lemma load_ok l o w : heap w !! l = Some o → load l w = (Ok o, w).
Proof. intros Hl. unfold load. by rewrite Hl. Qed.

Lemma keys_ok l o w : heap w !! l = Some o → keys l w = (Ok (keys_of o), w).
Proof. intros Hl. unfold keys. by rewrite (bind_ok _ _ _ _ _ (load_ok _ _ _ Hl)). Qed.

Lemma len_ok l o w :
  heap w !! l = Some o → len l w = (Ok (Z.of_nat (length (keys_of o))), w).
Proof. intros Hl. unfold len. by rewrite (bind_ok _ _ _ _ _ (keys_ok _ _ _ Hl)). Qed.

Lemma getitem_set_ok l c k s w :
  heap w !! l = Some (OCorpus c) → dict_get k c = Some s →
  getitem_set l k w = (Ok s, w).
Proof.
  intros Hl Hk. unfold getitem_set.
  rewrite (bind_ok _ _ _ _ _ (load_ok _ _ _ Hl)). by rewrite Hk.
Qed.

Lemma getitem_ok l t k v w :
  heap w !! l = Some (OTable t) → dict_get k t = Some v →
  getitem l k w = (Ok v, w).
Proof.
  intros Hl Hk. unfold getitem.
  rewrite (bind_ok _ _ _ _ _ (load_ok _ _ _ Hl)). by rewrite Hk.
Qed.

Lemma setitem_ok l t k v w :
  heap w !! l = Some (OTable t) →
  setitem l k v w
  = (Ok tt, World (<[l := OTable (dict_set k v t)]> (heap w)) (rng w)).
Proof.
  intros Hl. unfold setitem.
  by rewrite (bind_ok _ _ _ _ _ (load_ok _ _ _ Hl)).
Qed.

Lemma setitem_set_ok l c k s w :
  heap w !! l = Some (OCorpus c) →
  setitem_set l k s w
  = (Ok tt, World (<[l := OCorpus (dict_set k s c)]> (heap w)) (rng w)).
Proof.
  intros Hl. unfold setitem_set.
  by rewrite (bind_ok _ _ _ _ _ (load_ok _ _ _ Hl)).
Qed.

Lemma values_ok l t w :
  heap w !! l = Some (OTable t) → values l w = (Ok (dict_values t), w).
Proof.
  intros Hl. unfold values.
  by rewrite (bind_ok _ _ _ _ _ (load_ok _ _ _ Hl)).
Qed.

Lemma truediv_ok (a : number num) n w :
  n ≠ 0 → truediv a n w = (Ok (Float (div (to_float a) (of_Z n))), w).
Proof.
  intros Hn. unfold truediv. by rewrite (proj2 (Z.eqb_neq n 0) Hn).
Qed.

(** A loop whose body succeeds and maintains [I] succeeds and establishes
    [I] for the whole list. *)
Lemma for_each_ok {A S} (I : list A → S → world num → Prop)
    (xs : list A) (body : A → S → M num S) s w :
  I [] s w →
  (∀ done x rest s w, xs = done ++ x :: rest → I done s w →
     ∃ s' w', body x s w = (Ok s', w') ∧ I (done ++ [x]) s' w') →
  ∃ s' w', for_each xs body s w = (Ok s', w') ∧ I xs s' w'.
Proof.
  intros Hinit Hstep.
  assert (Hgen : ∀ rest done s w, xs = done ++ rest → I done s w →
            ∃ s' w', for_each rest body s w = (Ok s', w') ∧ I xs s' w').
  { induction rest as [|x rest IH]; intros done s0 w0 Hxs HI.
    - rewrite app_nil_r in Hxs. subst done. by exists s0, w0.
    - destruct (Hstep done x rest s0 w0 Hxs HI) as (s1 & w1 & Hbody & HI1).
      simpl. rewrite (bind_ok _ _ _ _ _ Hbody).
      apply (IH (done ++ [x])); [|done]. by rewrite <- app_assoc. }
  by apply (Hgen xs []).
Qed.

End Run.

(** * Framing: which objects a computation may write to *)

Section Frame.
Context {num : Type} `{Arith num}.
Implicit Types (w : world num) (l : loc) (n : nat).
Local Abbreviation frames := (frames (num := num)).

Lemma frames_ret {A} n (a : A) : frames n (ret a).
Proof. by intros w Hn. Qed.

Lemma frames_raise {A} n e : frames n (raise (A := A) e).
Proof. by intros w Hn. Qed.

Lemma frames_bind {A B} n (m : M num A) (k : A → M num B) :
  frames n m → (∀ a, frames n (k a)) → frames n (bind m k).
Proof.
  intros Hm Hk w Hn. unfold bind.
  destruct (Hm w Hn) as [Htake Hlen].
  destruct (m w) as [[a|e|] w']; simpl in *; [|done..].
  destruct (Hk a w') as [Htake' Hlen']; [lia|].
  split; [congruence | lia].
Qed.

Lemma frames_new_object {A} n o (k : loc → M num A) :
  (∀ l, (n ≤ l)%nat → frames n (k l)) → frames n (bind (new_object o) k).
Proof.
  intros Hk w Hn. unfold bind, new_object.
  destruct (Hk (length (heap w)) Hn (World (heap w ++ [o]) (rng w)))
    as [Htake Hlen]; simpl.
  { rewrite length_app. lia. }
  simpl in *. rewrite length_app in Hlen.
  rewrite take_app_le in Htake by done. split; [done | lia].
Qed.

Lemma frames_load n l : frames n (load l).
Proof. intros w Hn. unfold load. by case_match. Qed.

Lemma frames_store n l o : (n ≤ l)%nat → frames n (store l o).
Proof.
  intros Hl w Hn. unfold store; simpl.
  rewrite take_insert_ge by done. by rewrite length_insert.
Qed.

Lemma frames_draw n : frames n draw.
Proof. by intros w Hn. Qed.

Lemma frames_for_each {A S} n (xs : list A) (body : A → S → M num S) s :
  (∀ x s, frames n (body x s)) → frames n (for_each xs body s).
Proof.
  intros Hbody. revert s. induction xs as [|x xs IH]; intros s; simpl.
  - apply frames_ret.
  - apply frames_bind; [apply Hbody | apply IH].
Qed.

Lemma frames_while_true {A} n fuel (body : M num (option A)) :
  frames n body → frames n (while_true fuel body).
Proof.
  intros Hbody. induction fuel as [|fuel IH]; simpl.
  - by intros w Hn.
  - apply frames_bind; [done|]. intros [a|]; [apply frames_ret | done].
Qed.

Ltac frame_step :=
  first
    [ apply frames_ret | apply frames_raise | apply frames_load
    | apply frames_draw | apply frames_store; assumption
    | apply frames_for_each; intros
    | apply frames_while_true
    | apply frames_new_object; intros
    | apply frames_bind; [|intros]
    | match goal with
      | |- frames _ (if ?b then _ else _) => destruct b
      | |- frames _ (match ?x with _ => _ end) => destruct x
      | |- frames _ (match ?x with _ => _ end _) => destruct x
      end ].

Ltac frame := repeat frame_step.

Lemma frames_keys n l : frames n (keys l).
Proof. unfold keys. frame. Qed.

Lemma frames_len n l : frames n (len l).
Proof. unfold len. frame. Qed.

Lemma frames_getitem_set n l k : frames n (getitem_set l k).
Proof. unfold getitem_set. frame. Qed.

Lemma frames_getitem n l k : frames n (getitem l k).
Proof. unfold getitem. frame. Qed.

Lemma frames_values n l : frames n (values l).
Proof. unfold values. frame. Qed.

Lemma frames_setitem n l k v : (n ≤ l)%nat → frames n (setitem l k v).
Proof. intros Hl. unfold setitem. frame. Qed.

Lemma frames_setitem_set n l k s : (n ≤ l)%nat → frames n (setitem_set l k s).
Proof. intros Hl. unfold setitem_set. frame. Qed.

Lemma frames_truediv n a z : frames n (truediv a z).
Proof. unfold truediv. frame. Qed.

Lemma frames_random n : frames n random.
Proof. unfold random. frame. Qed.

Lemma frames_random_choice {A} n (xs : list A) : frames n (random_choice xs).
Proof. unfold random_choice. frame. Qed.

Lemma frames_random_choices n population weights :
  frames n (random_choices population weights).
Proof. unfold random_choices. frame. Qed.

Ltac frame_prog_step :=
  first
    [ apply frames_keys | apply frames_len | apply frames_getitem_set
    | apply frames_getitem | apply frames_values | apply frames_truediv
    | apply frames_setitem; assumption
    | apply frames_setitem_set; assumption
    | apply frames_random_choice | apply frames_random_choices
    | frame_step ].

Ltac frame_prog := repeat frame_prog_step.

Lemma frames_crawl findall_href n directory :
  frames n (crawl findall_href directory).
Proof. unfold crawl. frame_prog. Qed.

Lemma frames_transition_model n corpus page d :
  frames n (transition_model corpus page d).
Proof. unfold transition_model. frame_prog. Qed.

Lemma frames_sample_pagerank n corpus d samples :
  frames n (sample_pagerank corpus d samples).
Proof.
  unfold sample_pagerank.
  repeat first [apply frames_transition_model | frame_prog_step].
Qed.

Lemma frames_iterate_pagerank n fuel corpus d :
  frames n (iterate_pagerank fuel corpus d).
Proof.
  unfold iterate_pagerank, update_pass, update_rank, contribution. frame_prog.
Qed.

(** What framing gives for one object. *)
Lemma frames_lookup {A} (m : M num A) w l :
  frames (length (heap w)) m → (l < length (heap w))%nat →
  heap (m w).2 !! l = heap w !! l.
Proof.
  intros Hm Hl. destruct (Hm w) as [Htake _]; [lia|].
  rewrite (take_ge (heap w)) in Htake by lia.
  rewrite <- Htake. by rewrite lookup_take_lt.
Qed.

End Frame.

(** * The transition model in closed form *)

Section HeapShape.
Context {num : Type} `{Arith num}.

Lemma lookup_own (h tl : list (obj num)) o : (h ++ o :: tl) !! length h = Some o.
Proof. by apply list_lookup_middle. Qed.

Lemma insert_own (h tl : list (obj num)) o o' :
  <[length h := o']> (h ++ o :: tl) = h ++ o' :: tl.
Proof.
  rewrite insert_app_r_alt by lia. by rewrite Nat.sub_diag.
Qed.

Lemma lookup_old (h tl : list (obj num)) (c : loc) o :
  h !! c = Some o → (h ++ tl) !! c = Some o.
Proof. apply lookup_app_l_Some. Qed.

End HeapShape.

Section Transition.
Context {num : Type} `{Arith num}.

Lemma fill_tabulate {V} (v : V) (ks done : list string) :
  NoDup (done ++ ks) →
  fold_left (λ t k, dict_set k v t) ks (tabulate (λ _, v) done)
  = tabulate (λ _, v) (done ++ ks).
Proof.
  revert done. induction ks as [|k ks IH]; intros done Hnd; simpl.
  - by rewrite app_nil_r.
  - rewrite dict_set_fresh.
    + rewrite <- (tabulate_snoc (λ _, v)). rewrite IH.
      * by rewrite <- app_assoc.
      * by rewrite <- app_assoc.
    + rewrite dict_keys_tabulate. apply NoDup_app in Hnd as (_ & Hdisj & _).
      intros Hin. apply (Hdisj k Hin). apply list_elem_of_here.
Qed.

Lemma fill_tabulate_nil {V} (v : V) (ks : list string) :
  NoDup ks → fold_left (λ t k, dict_set k v t) ks [] = tabulate (λ _, v) ks.
Proof. intros Hnd. by apply (fill_tabulate v ks []). Qed.

Section Loops.
Variables (h : list (obj num)) (r : nat → Z).
Variables (c : loc) (corpus : dict (gset string)).
Hypothesis Hc : h !! c = Some (OCorpus corpus).

(** [for key in ks: cont[key] = x / len(corpus)] *)
Lemma fill_loop (x : number num) (ks : list string) (t : dict (number num)) :
  ks = [] ∨ page_count corpus ≠ 0 →
  for_each ks (λ key (_ : unit),
    let* n := len c in
    let* p := truediv x n in
    setitem (length h) key p) tt (World (h ++ [OTable t]) r)
  = (Ok tt,
     World (h ++ [OTable (fold_left (λ t k,
              dict_set k (Float (div (to_float x) (of_Z (page_count corpus)))) t)
              ks t)]) r).
Proof using Hc.
  revert t. induction ks as [|k ks IH]; intros t Hn; simpl; [done|].
  destruct Hn as [?|Hn]; [done|].
  erewrite bind_ok; [|].
  2:{ erewrite bind_ok; [|eapply len_ok; simpl; by apply lookup_old].
      erewrite bind_ok; [|by apply truediv_ok].
      apply setitem_ok. simpl. apply lookup_own. }
  simpl. rewrite insert_own. apply IH. by right.
Qed.

(** [for key in ks: ans[key] = x / N] with [N] read beforehand *)
Lemma fill_loop_const (x : number num) (N : Z) (ks : list string)
    (t : dict (number num)) :
  ks = [] ∨ N ≠ 0 →
  for_each ks (λ key (_ : unit),
    let* p := truediv x N in
    setitem (length h) key p) tt (World (h ++ [OTable t]) r)
  = (Ok tt,
     World (h ++ [OTable (fold_left (λ t k,
              dict_set k (Float (div (to_float x) (of_Z N))) t) ks t)]) r).
Proof using Type.
  revert t. induction ks as [|k ks IH]; intros t Hn; simpl; [done|].
  destruct Hn as [?|Hn]; [done|].
  erewrite bind_ok; [|].
  2:{ erewrite bind_ok; [|by apply truediv_ok].
      apply setitem_ok. simpl. apply lookup_own. }
  simpl. rewrite insert_own. apply IH. by right.
Qed.

End Loops.
End Transition.

Section TransitionRun.
Context {num : Type} `{Arith num}.

(** [for link in corpus[page]: cont[link] += damping_factor / len(corpus[page])] *)
Lemma add_links_loop (h : list (obj num)) (r : nat → Z) (c : loc)
    (corpus : dict (gset string)) (page : string) (links : gset string)
    (d : num) (base : num) :
  h !! c = Some (OCorpus corpus) →
  dict_get page corpus = Some links →
  NoDup (dict_keys corpus) →
  (∀ link, link ∈ links → link ∈ dict_keys corpus) →
  size links ≠ 0%nat →
  for_each (elements links) (λ link (_ : unit),
    let* old := getitem (length h) link in
    let* links' := getitem_set c page in
    let* p := truediv (Float d) (Z.of_nat (size links')) in
    setitem (length h) link (py_add old p)) tt
    (World (h ++ [OTable (tabulate (λ _, Float base) (dict_keys corpus))]) r)
  = (Ok tt,
     World (h ++ [OTable (tabulate (λ k,
              if bool_decide (k ∈ links)
              then Float (add base (div d (of_Z (Z.of_nat (size links)))))
              else Float base) (dict_keys corpus))]) r).
Proof.
  intros Hc Hpage Hnd Hclosed Hsize.
  set (dl := div d (of_Z (Z.of_nat (size links)))).
  set (tbl := λ done : list string,
         tabulate (λ k, if bool_decide (k ∈ done)
                        then Float (add base dl) else Float base)
                  (dict_keys corpus)).
  destruct (for_each_ok
    (λ done (_ : unit) w, w = World (h ++ [OTable (tbl done)]) r)
    (elements links)
    (λ link (_ : unit),
      let* old := getitem (length h) link in
      let* links' := getitem_set c page in
      let* p := truediv (Float d) (Z.of_nat (size links')) in
      setitem (length h) link (py_add old p)) tt
    (World (h ++ [OTable (tabulate (λ _, Float base) (dict_keys corpus))]) r))
    as (s' & w' & Hrun & Hfinal).
  - assert (tbl [] = tabulate (λ _, Float base) (dict_keys corpus)) as ->; [|done].
    apply tabulate_ext. intros k _.
    rewrite bool_decide_eq_false_2; [done|]. apply not_elem_of_nil.
  - intros done x rest [] w Hsplit ->.
    assert (Hx : x ∈ dict_keys corpus).
    { apply Hclosed. apply elem_of_elements.
      rewrite Hsplit. apply elem_of_app. right. apply list_elem_of_here. }
    assert (Hfresh : x ∉ done).
    { pose proof (NoDup_elements links) as Hnd'. rewrite Hsplit in Hnd'.
      apply NoDup_app in Hnd' as (_ & Hdisj & _).
      intros Hin. apply (Hdisj x Hin). apply list_elem_of_here. }
    exists tt. eexists. split.
    + erewrite bind_ok.
      2:{ eapply getitem_ok; [apply lookup_own|].
          unfold tbl. by apply dict_get_tabulate. }
      rewrite bool_decide_eq_false_2 by done.
      erewrite bind_ok; [|eapply getitem_set_ok; [by apply lookup_old | done]].
      erewrite bind_ok; [|apply truediv_ok; lia].
      erewrite setitem_ok; [|apply lookup_own]. simpl. by rewrite insert_own.
    + assert (dict_set x (Float (add base (div d (of_Z (Z.of_nat (size links))))))
                (tbl done) = tbl (done ++ [x])) as ->; [|done].
      unfold tbl. rewrite dict_set_tabulate by done.
      apply tabulate_ext. intros k _. fold dl.
      destruct (decide (k = x)) as [->|Hne].
      * rewrite bool_decide_eq_true_2; [done|].
        apply elem_of_app. right. apply list_elem_of_here.
      * apply (f_equal (λ b : bool, if b then _ else _)).
        apply bool_decide_ext. rewrite elem_of_app, list_elem_of_singleton.
        tauto.
  - destruct s'. rewrite Hrun, Hfinal.
    assert (tbl (elements links)
            = tabulate (λ k, if bool_decide (k ∈ links)
                             then Float (add base dl) else Float base)
                       (dict_keys corpus)) as ->; [|done].
    unfold tbl. apply tabulate_ext. intros k _.
    apply (f_equal (λ b : bool, if b then _ else _)).
    apply bool_decide_ext. apply elem_of_elements.
Qed.

(** From a page of the corpus whose links all lead into the corpus, the
    transition model returns a fresh table holding [distribution], and
    touches nothing else: neither the objects already there nor the
    random source. *)
Lemma transition_model_run (w : world num) (c : loc)
    (corpus : dict (gset string)) (page : string) (links : gset string) (d : num) :
  heap w !! c = Some (OCorpus corpus) →
  dict_get page corpus = Some links →
  NoDup (dict_keys corpus) →
  (∀ link, link ∈ links → link ∈ dict_keys corpus) →
  transition_model c page d w
  = (Ok (length (heap w)),
     World (heap w ++ [OTable (distribution corpus links d)]) (rng w)).
Proof.
  intros Hc Hpage Hnd Hclosed. destruct w as [h r]; simpl in *.
  assert (HN : page_count corpus ≠ 0).
  { unfold page_count. apply dict_get_Some_elem in Hpage.
    destruct (dict_keys corpus); [by apply elem_of_nil in Hpage | simpl; lia]. }
  unfold transition_model.
  rewrite (bind_ok _ _ _ (length h) (World (h ++ [OTable []]) r)) by done.
  erewrite bind_ok; [|eapply getitem_set_ok; [by apply lookup_old | done]].
  unfold distribution.
  destruct (Z.of_nat (size links) =? 0)%Z eqn:Hsize; simpl.
  - erewrite bind_ok; [|eapply keys_ok; by apply lookup_old]. simpl.
    erewrite bind_ok; [|apply fill_loop with (corpus := corpus); [done | by right]].
    simpl. by rewrite fill_tabulate_nil.
  - erewrite bind_ok; [|eapply keys_ok; by apply lookup_old]. simpl.
    erewrite bind_ok; [|apply fill_loop with (corpus := corpus); [done | by right]].
    simpl. rewrite fill_tabulate_nil by done.
    apply Z.eqb_neq in Hsize.
    erewrite bind_ok; [|eapply getitem_set_ok; [by apply lookup_old | done]].
    erewrite bind_ok; [done|].
    eapply add_links_loop; [done..|lia].
Qed.

End TransitionRun.

(** * The iterative solver as a function on tables *)

Section Iterate.
Context {num : Type} `{Arith num}.
Implicit Types (corpus : dict (gset string)) (ans : dict (number num)).

Section IterateRun.
Variables (h : list (obj num)) (r : nat → Z).
Variables (c : loc) (corpus : dict (gset string)) (d : num).
Hypothesis Hc : h !! c = Some (OCorpus corpus).

Lemma contribution_run ans key page sum :
  covers corpus ans → page ∈ dict_keys corpus →
  contribution c (length h) key page sum (World (h ++ [OTable ans]) r)
  = (Ok (contribute corpus ans key sum page), World (h ++ [OTable ans]) r).
Proof using Hc.
  intros Hcov Hpage.
  destruct (dict_get_is_Some page corpus Hpage) as [links Hlinks].
  destruct (dict_get_is_Some page ans (Hcov _ Hpage)) as [v Hv].
  unfold contribution, contribute, links_of, rank_of.
  rewrite Hlinks, Hv; simpl.
  erewrite bind_ok; [|eapply getitem_set_ok; [by apply lookup_old | done]].
  destruct (bool_decide (key ∈ links)) eqn:Hin.
  - apply bool_decide_eq_true in Hin.
    assert (size links ≠ 0%nat).
    { intros Hz. apply size_empty_inv in Hz. set_solver. }
    erewrite bind_ok; [|eapply getitem_ok; [apply lookup_own | done]].
    erewrite bind_ok; [|eapply getitem_set_ok; [by apply lookup_old | done]].
    erewrite bind_ok; [|apply truediv_ok; lia]. done.
  - erewrite bind_ok; [|eapply getitem_set_ok; [by apply lookup_old | done]].
    destruct (Z.of_nat (size links) =? 0)%Z; [|done].
    erewrite bind_ok; [|eapply getitem_ok; [apply lookup_own | done]].
    erewrite bind_ok; [|eapply len_ok; by apply lookup_old].
    erewrite bind_ok; [done|]. apply truediv_ok. unfold page_count; simpl.
    destruct (dict_keys corpus); [by apply elem_of_nil in Hpage | simpl; lia].
Qed.

Lemma contributions_run ans key pages sum :
  covers corpus ans → (∀ p, p ∈ pages → p ∈ dict_keys corpus) →
  for_each pages (contribution c (length h) key) sum (World (h ++ [OTable ans]) r)
  = (Ok (fold_left (contribute corpus ans key) pages sum),
     World (h ++ [OTable ans]) r).
Proof using Hc.
  intros Hcov. revert sum. induction pages as [|p pages IH]; intros sum Hsub.
  - done.
  - simpl. erewrite bind_ok.
    2:{ apply contribution_run; [done|]. apply Hsub, list_elem_of_here. }
    apply IH. intros p' Hp'. by apply Hsub, list_elem_of_further.
Qed.

Lemma update_rank_run ans key count :
  covers corpus ans → key ∈ dict_keys corpus →
  update_rank c (length h) (page_count corpus) d key count
    (World (h ++ [OTable ans]) r)
  = (Ok (rank_step corpus d (ans, count) key).2,
     World (h ++ [OTable (rank_step corpus d (ans, count) key).1]) r).
Proof using Hc.
  intros Hcov Hkey.
  destruct (dict_get_is_Some key ans (Hcov _ Hkey)) as [v Hv].
  unfold update_rank.
  erewrite bind_ok.
  2:{ apply truediv_ok. unfold page_count.
      destruct (dict_keys corpus); [by apply elem_of_nil in Hkey | simpl; lia]. }
  erewrite bind_ok; [|eapply keys_ok; by apply lookup_old].
  erewrite bind_ok; [|by apply contributions_run].
  erewrite bind_ok; [|eapply getitem_ok; [apply lookup_own | done]].
  erewrite bind_ok; [|apply setitem_ok, lookup_own].
  simpl. rewrite insert_own.
  unfold rank_step, new_rank, close_enough, rank_of; simpl. by rewrite Hv.
Qed.

Lemma covers_step ans count key :
  covers corpus ans → key ∈ dict_keys corpus →
  covers corpus (rank_step corpus d (ans, count) key).1.
Proof using Type.
  intros Hcov Hkey k Hk. simpl. rewrite dict_keys_set; auto.
Qed.

Lemma update_ranks_run pages ans count :
  covers corpus ans → (∀ p, p ∈ pages → p ∈ dict_keys corpus) →
  for_each pages (update_rank c (length h) (page_count corpus) d) count
    (World (h ++ [OTable ans]) r)
  = (Ok (fold_left (rank_step corpus d) pages (ans, count)).2,
     World (h ++ [OTable (fold_left (rank_step corpus d) pages (ans, count)).1]) r).
Proof using Hc.
  revert ans count. induction pages as [|p pages IH]; intros ans count Hcov Hsub.
  - done.
  - assert (Hp : p ∈ dict_keys corpus) by apply Hsub, list_elem_of_here.
    simpl. erewrite bind_ok; [|by apply update_rank_run].
    rewrite IH.
    + by destruct (rank_step corpus d (ans, count) p).
    + by apply covers_step.
    + intros p' Hp'. by apply Hsub, list_elem_of_further.
Qed.

Lemma covers_pass ans : covers corpus ans → covers corpus (rank_pass corpus d ans).1.
Proof using Type.
  intros Hcov. unfold rank_pass.
  assert (Hgen : ∀ pages st, covers corpus st.1 →
            (∀ p, p ∈ pages → p ∈ dict_keys corpus) →
            covers corpus (fold_left (rank_step corpus d) pages st).1).
  { induction pages as [|p pages IH]; intros [a n] Ha Hsub; [done|].
    simpl. apply IH.
    - apply covers_step; [done|]. apply Hsub, list_elem_of_here.
    - intros p' Hp'. by apply Hsub, list_elem_of_further. }
  by apply Hgen.
Qed.

Lemma update_pass_run ans :
  covers corpus ans →
  update_pass c (length h) (page_count corpus) d (World (h ++ [OTable ans]) r)
  = (Ok (if ((rank_pass corpus d ans).2 =? page_count corpus)%Z
         then Some (length h) else None),
     World (h ++ [OTable (rank_pass corpus d ans).1]) r).
Proof using Hc.
  intros Hcov. unfold update_pass.
  erewrite bind_ok; [|eapply keys_ok; by apply lookup_old].
  erewrite bind_ok; [|by apply update_ranks_run].
  change (keys_of (OCorpus corpus)) with (dict_keys corpus).
  fold (rank_pass corpus d ans).
  by destruct ((rank_pass corpus d ans).2 =? page_count corpus)%Z.
Qed.

Lemma while_update_pass_run fuel ans :
  covers corpus ans →
  while_true fuel (update_pass c (length h) (page_count corpus) d)
    (World (h ++ [OTable ans]) r)
  = (if (rank_iterate fuel corpus d ans).1 then Ok (length h) else OutOfFuel,
     World (h ++ [OTable (rank_iterate fuel corpus d ans).2]) r).
Proof using Hc.
  revert ans. induction fuel as [|fuel IH]; intros ans Hcov; [done|].
  simpl. erewrite bind_ok; [|by apply update_pass_run].
  destruct ((rank_pass corpus d ans).2 =? page_count corpus)%Z; [done|].
  apply IH. by apply covers_pass.
Qed.

End IterateRun.

(** [iterate_pagerank] allocates one table, runs [rank_iterate] on it in
    place, and touches nothing else. *)
Lemma iterate_pagerank_run (w : world num) (c : loc) corpus (d : num) fuel :
  heap w !! c = Some (OCorpus corpus) →
  NoDup (dict_keys corpus) →
  iterate_pagerank fuel c d w
  = (if (rank_iterate fuel corpus d (initial_ranks corpus)).1
     then Ok (length (heap w)) else OutOfFuel,
     World (heap w ++ [OTable (rank_iterate fuel corpus d (initial_ranks corpus)).2])
           (rng w)).
Proof.
  intros Hc Hnd. destruct w as [h r]; simpl in *.
  unfold iterate_pagerank.
  rewrite (bind_ok _ _ _ (length h) (World (h ++ [OTable []]) r)) by done.
  erewrite bind_ok; [|eapply len_ok; by apply lookup_old].
  erewrite bind_ok; [|eapply keys_ok; by apply lookup_old]. simpl.
  erewrite bind_ok.
  2:{ apply fill_loop_const. destruct (dict_keys corpus); [by left | right; simpl; lia]. }
  simpl. rewrite fill_tabulate_nil by done.
  apply (while_update_pass_run h r c corpus d Hc).
  intros k Hk. unfold initial_ranks. by rewrite dict_keys_tabulate.
Qed.

End Iterate.

(** * What the caller gets back *)

Section Results.
Context {num : Type} `{Arith num}.
Implicit Types (corpus : dict (gset string)) (w : world num).

Lemma result_table_fresh (h : list (obj num)) (r : nat → Z) t :
  result_table (Ok (length h), World (h ++ [OTable t]) r) = Ok t.
Proof. unfold result_table; simpl. by rewrite lookup_own. Qed.

Lemma dict_keys_rank_step corpus (d : num) st key :
  key ∈ dict_keys st.1 → dict_keys (rank_step corpus d st key).1 = dict_keys st.1.
Proof. intros Hkey. simpl. by apply dict_keys_set. Qed.

Lemma dict_keys_rank_fold corpus (d : num) pages st :
  (∀ p, p ∈ pages → p ∈ dict_keys st.1) →
  dict_keys (fold_left (rank_step corpus d) pages st).1 = dict_keys st.1.
Proof.
  revert st. induction pages as [|p pages IH]; intros st Hsub; [done|].
  assert (Hp : p ∈ dict_keys st.1) by apply Hsub, list_elem_of_here.
  simpl. rewrite IH.
  - by apply dict_keys_rank_step.
  - intros p' Hp'. rewrite dict_keys_rank_step by done.
    by apply Hsub, list_elem_of_further.
Qed.

Lemma dict_keys_rank_pass corpus (d : num) ans :
  dict_keys ans = dict_keys corpus →
  dict_keys (rank_pass corpus d ans).1 = dict_keys corpus.
Proof.
  intros Hkeys. unfold rank_pass. rewrite dict_keys_rank_fold; [done|].
  intros p Hp. simpl. by rewrite Hkeys.
Qed.

Lemma dict_keys_rank_iterate fuel corpus (d : num) ans :
  dict_keys ans = dict_keys corpus →
  dict_keys (rank_iterate fuel corpus d ans).2 = dict_keys corpus.
Proof.
  revert ans. induction fuel as [|fuel IH]; intros ans Hkeys; [done|].
  simpl. destruct (_ =? _)%Z; simpl.
  - by apply dict_keys_rank_pass.
  - by apply IH, dict_keys_rank_pass.
Qed.

(** Once a pass has counted every page, more fuel changes nothing. *)
Lemma rank_iterate_more fuel k corpus (d : num) ans :
  (rank_iterate fuel corpus d ans).1 = true →
  rank_iterate (fuel + k) corpus d ans = rank_iterate fuel corpus d ans.
Proof.
  revert ans. induction fuel as [|fuel IH]; intros ans; simpl; [done|].
  destruct (_ =? _)%Z; [done | apply IH].
Qed.

Lemma rank_iterate_agree fuel fuel' corpus (d : num) ans :
  (rank_iterate fuel corpus d ans).1 = true →
  (rank_iterate fuel' corpus d ans).1 = true →
  (rank_iterate fuel corpus d ans).2 = (rank_iterate fuel' corpus d ans).2.
Proof.
  intros Hf Hf'. destruct (Nat.le_ge_cases fuel fuel') as [Hle|Hle].
  - replace fuel' with (fuel + (fuel' - fuel))%nat by lia.
    by rewrite rank_iterate_more.
  - replace fuel with (fuel' + (fuel - fuel'))%nat by lia.
    by rewrite rank_iterate_more.
Qed.

Lemma iterate_pagerank_result w (c : loc) corpus (d : num) fuel :
  heap w !! c = Some (OCorpus corpus) →
  NoDup (dict_keys corpus) →
  result_table (iterate_pagerank fuel c d w)
  = if (rank_iterate fuel corpus d (initial_ranks corpus)).1
    then Ok (rank_iterate fuel corpus d (initial_ranks corpus)).2
    else OutOfFuel.
Proof.
  intros Hc Hnd. rewrite (iterate_pagerank_run w c corpus d fuel Hc Hnd).
  destruct (rank_iterate fuel corpus d (initial_ranks corpus)).1.
  - apply result_table_fresh.
  - done.
Qed.

End Results.

(** * The transition model, page by page *)

Section TransitionTable.
Context {num : Type} `{Arith num}.
Implicit Types (corpus : dict (gset string)) (w : world num).

(** C4. On a sink page (empty outbound set), [transition_model] returns
    the table that gives every page of the corpus, the sink included, the
    value [1 / N] exactly, whatever the damping factor. *)
Theorem transition_sink_uniform w (c : loc) corpus (page : string) (d : num) :
  heap w !! c = Some (OCorpus corpus) →
  NoDup (dict_keys corpus) →
  dict_get page corpus = Some ∅ →
  ∃ t, result_table (transition_model c page d w) = Ok t
       ∧ dict_keys t = dict_keys corpus
       ∧ page ∈ dict_keys t
       ∧ ∀ k, k ∈ dict_keys corpus →
           dict_get k t = Some (Float (div (of_Z 1) (of_Z (page_count corpus)))).
Proof.
  intros Hc Hnd Hpage.
  rewrite (transition_model_run w c corpus page ∅ d Hc Hpage Hnd) by set_solver.
  rewrite result_table_fresh. eexists. split; [done|].
  unfold distribution. rewrite size_empty. simpl.
  rewrite dict_keys_tabulate. split; [done|]. split.
  - by eapply dict_get_Some_elem.
  - intros k Hk. by rewrite dict_get_tabulate.
Qed.

(** C5. On a page with [L > 0] outbound links, [transition_model] gives
    every page of the corpus the base value [(1 - d) / N], and the pages of
    the outbound set get [d / L] added on top; the table has no other
    entry. *)
Theorem transition_links_damped w (c : loc) corpus (page : string)
    (links : gset string) (d : num) :
  heap w !! c = Some (OCorpus corpus) →
  wf_corpus corpus →
  dict_get page corpus = Some links →
  size links ≠ 0%nat →
  let base := div (sub (of_Z 1) d) (of_Z (page_count corpus)) in
  let share := div d (of_Z (Z.of_nat (size links))) in
  ∃ t, result_table (transition_model c page d w) = Ok t
       ∧ dict_keys t = dict_keys corpus
       ∧ ∀ k, k ∈ dict_keys corpus →
           dict_get k t = Some (if bool_decide (k ∈ links)
                                then py_add (Float base) (Float share)
                                else Float base).
Proof.
  intros Hc [Hnd Hclosed] Hpage Hsize base share.
  rewrite (transition_model_run w c corpus page links d Hc Hpage Hnd)
    by (intros link; apply (Hclosed page links link Hpage)).
  rewrite result_table_fresh. eexists. split; [done|].
  unfold distribution.
  rewrite (proj2 (Z.eqb_neq _ 0)) by lia.
  rewrite dict_keys_tabulate. split; [done|].
  intros k Hk. rewrite dict_get_tabulate by done. simpl.
  by destruct (bool_decide (k ∈ links)).
Qed.

End TransitionTable.

Lemma dict_get_Some_entry {V} (k : string) (v : V) (d : dict V) :
  dict_get k d = Some v → (k, v) ∈ d.
Proof.
  induction d as [|[k' v'] d IH]; simpl; [done|].
  destruct (decide (k = k')) as [->|Hne]; intros Hget.
  - injection Hget as ->. apply list_elem_of_here.
  - apply list_elem_of_further. by apply IH.
Qed.

Lemma wf_corpusb_true (corpus : dict (gset string)) :
  wf_corpusb corpus = true → wf_corpus corpus.
Proof.
  unfold wf_corpusb. intros Hb. apply andb_true_iff in Hb as [Hnd Hall].
  split; [by apply bool_decide_eq_true in Hnd|].
  intros page links link Hget Hin.
  rewrite forallb_forall in Hall.
  apply dict_get_Some_entry, list_elem_of_In in Hget.
  specialize (Hall _ Hget). simpl in Hall. rewrite forallb_forall in Hall.
  eapply bool_decide_eq_true_1, Hall, list_elem_of_In. by apply elem_of_elements.
Qed.

Lemma transition_sink_uniform_witness :
  ∃ t, result_table (transition_model 0%nat "B" DAMPING (world_AB (λ _, 0%Z))) = Ok t
       ∧ dict_keys t = dict_keys corpus_AB
       ∧ "B"%string ∈ dict_keys t
       ∧ ∀ k, k ∈ dict_keys corpus_AB →
           dict_get k t = Some (Float (div (of_Z 1) (of_Z (page_count corpus_AB)))).
Proof.
  apply (transition_sink_uniform (world_AB (λ _, 0%Z)) 0%nat corpus_AB "B" DAMPING).
  - reflexivity.
  - apply (bool_decide_unpack _). vm_compute. exact I.
  - reflexivity.
Defined.

Lemma transition_links_damped_witness :
  ∃ t, result_table (transition_model 0%nat "A" DAMPING (world_AB (λ _, 0%Z))) = Ok t
       ∧ dict_keys t = dict_keys corpus_AB
       ∧ ∀ k, k ∈ dict_keys corpus_AB →
           dict_get k t
           = Some (if bool_decide (k ∈ ({["B"%string]} : gset string))
                   then py_add
                          (Float (div (sub (of_Z 1) DAMPING)
                                      (of_Z (page_count corpus_AB))))
                          (Float (div DAMPING
                                      (of_Z (Z.of_nat
                                         (size ({["B"%string]} : gset string))))))
                   else Float (div (sub (of_Z 1) DAMPING)
                                   (of_Z (page_count corpus_AB)))).
Proof.
  apply (transition_links_damped (world_AB (λ _, 0%Z)) 0%nat corpus_AB "A"
           {["B"%string]} DAMPING).
  - reflexivity.
  - apply wf_corpusb_true. vm_compute. reflexivity.
  - reflexivity.
  - vm_compute. lia.
Defined.

(** * Frame and determinism *)

Section FrameDeterminism.
Context {num : Type} `{Arith num}.
Implicit Types (corpus : dict (gset string)) (w : world num).

(** C9. None of [transition_model], [sample_pagerank], [iterate_pagerank]
    mutates the corpus: whatever the outcome of the call, the corpus object
    (the mapping and each outbound set in it) is afterwards what it was
    before; and the table [transition_model] returns is a function of the
    corpus, the page and the damping factor alone. *)
Theorem corpus_never_mutated w (c : loc) corpus (page : string) (d : num)
    (n : Z) (fuel : nat) :
  heap w !! c = Some (OCorpus corpus) →
  heap (transition_model c page d w).2 !! c = Some (OCorpus corpus)
  ∧ heap (sample_pagerank c d n w).2 !! c = Some (OCorpus corpus)
  ∧ heap (iterate_pagerank fuel c d w).2 !! c = Some (OCorpus corpus)
  ∧ (wf_corpus corpus → page ∈ dict_keys corpus →
     result_table (transition_model c page d w)
     = Ok (distribution corpus (links_of corpus page) d)).
Proof.
  intros Hc.
  assert (Hlt : (c < length (heap w))%nat) by by eapply lookup_lt_Some.
  repeat split.
  - rewrite frames_lookup; [done | apply frames_transition_model | done].
  - rewrite frames_lookup; [done | apply frames_sample_pagerank | done].
  - rewrite frames_lookup; [done | apply frames_iterate_pagerank | done].
  - intros [Hnd Hclosed] Hpage.
    destruct (dict_get_is_Some page corpus Hpage) as [links Hlinks].
    unfold links_of. rewrite Hlinks. simpl.
    rewrite (transition_model_run w c corpus page links d Hc Hlinks Hnd)
      by (intros link; apply (Hclosed page links link Hlinks)).
    apply result_table_fresh.
Qed.

(** C10. [transition_model] and [iterate_pagerank] are deterministic:
    run on the same corpus, page and damping factor they return the same
    table whatever else the world holds and whatever the random source
    would draw, they leave the random source as it was, and the keys of
    the table they return are the keys of the corpus; for the solver,
    any two runs that return agree, however many passes were allowed. *)
Theorem transition_iterate_deterministic w1 w2 (c1 c2 : loc) corpus
    (page : string) (d : num) (fuel fuel' : nat) :
  heap w1 !! c1 = Some (OCorpus corpus) →
  heap w2 !! c2 = Some (OCorpus corpus) →
  wf_corpus corpus →
  page ∈ dict_keys corpus →
  (result_table (transition_model c1 page d w1)
   = result_table (transition_model c2 page d w2)
   ∧ rng (transition_model c1 page d w1).2 = rng w1
   ∧ ∃ t, result_table (transition_model c1 page d w1) = Ok t
          ∧ dict_keys t = dict_keys corpus)
  ∧ (result_table (iterate_pagerank fuel c1 d w1)
     = result_table (iterate_pagerank fuel c2 d w2)
     ∧ rng (iterate_pagerank fuel c1 d w1).2 = rng w1
     ∧ ∀ t, result_table (iterate_pagerank fuel c1 d w1) = Ok t →
         dict_keys t = dict_keys corpus
         ∧ ∀ t', result_table (iterate_pagerank fuel' c2 d w2) = Ok t' → t' = t).
Proof.
  intros Hc1 Hc2 [Hnd Hclosed] Hpage.
  destruct (dict_get_is_Some page corpus Hpage) as [links Hlinks].
  assert (Hin : ∀ link, link ∈ links → link ∈ dict_keys corpus)
    by (intros link; apply (Hclosed page links link Hlinks)).
  split.
  - rewrite (transition_model_run w1 c1 corpus page links d Hc1 Hlinks Hnd Hin).
    rewrite (transition_model_run w2 c2 corpus page links d Hc2 Hlinks Hnd Hin).
    rewrite !result_table_fresh. repeat split. eexists. split; [done|].
    unfold distribution. destruct (_ =? _)%Z; apply dict_keys_tabulate.
  - rewrite (iterate_pagerank_result w1 c1 corpus d fuel Hc1 Hnd).
    rewrite (iterate_pagerank_result w2 c2 corpus d fuel Hc2 Hnd).
    rewrite (iterate_pagerank_run w1 c1 corpus d fuel Hc1 Hnd).
    split; [done|]. split; [done|].
    intros t Ht.
    destruct (rank_iterate fuel corpus d (initial_ranks corpus)).1 eqn:Hok;
      [|done].
    injection Ht as <-. split.
    + apply dict_keys_rank_iterate. apply dict_keys_tabulate.
    + intros t'. rewrite (iterate_pagerank_result w2 c2 corpus d fuel' Hc2 Hnd).
      destruct (rank_iterate fuel' corpus d (initial_ranks corpus)).1 eqn:Hok';
        [|done].
      intros [= <-]. by apply rank_iterate_agree.
Qed.

End FrameDeterminism.

Lemma corpus_never_mutated_witness :
  heap (transition_model 0%nat "A" DAMPING (world_AB (λ _, 0%Z))).2 !! 0%nat
  = Some (OCorpus corpus_AB)
  ∧ heap (sample_pagerank 0%nat DAMPING 3 (world_AB (λ _, 0%Z))).2 !! 0%nat
    = Some (OCorpus corpus_AB)
  ∧ heap (iterate_pagerank 20 0%nat DAMPING (world_AB (λ _, 0%Z))).2 !! 0%nat
    = Some (OCorpus corpus_AB)
  ∧ (wf_corpus corpus_AB → "A"%string ∈ dict_keys corpus_AB →
     result_table (transition_model 0%nat "A" DAMPING (world_AB (λ _, 0%Z)))
     = Ok (distribution corpus_AB (links_of corpus_AB "A") DAMPING)).
Proof.
  apply (corpus_never_mutated (world_AB (λ _, 0%Z)) 0%nat corpus_AB "A" DAMPING 3 20).
  reflexivity.
Defined.

Lemma transition_iterate_deterministic_witness :
  (result_table (transition_model 0%nat "A" DAMPING (world_AB (λ _, 0%Z)))
   = result_table (transition_model 0%nat "A" DAMPING (world_AB (λ i, Z.of_nat i)))
   ∧ rng (transition_model 0%nat "A" DAMPING (world_AB (λ _, 0%Z))).2
     = rng (world_AB (λ _, 0%Z))
   ∧ ∃ t, result_table (transition_model 0%nat "A" DAMPING (world_AB (λ _, 0%Z))) = Ok t
          ∧ dict_keys t = dict_keys corpus_AB)
  ∧ (result_table (iterate_pagerank 20 0%nat DAMPING (world_AB (λ _, 0%Z)))
     = result_table (iterate_pagerank 20 0%nat DAMPING (world_AB (λ i, Z.of_nat i)))
     ∧ rng (iterate_pagerank 20 0%nat DAMPING (world_AB (λ _, 0%Z))).2
       = rng (world_AB (λ _, 0%Z))
     ∧ ∀ t, result_table (iterate_pagerank 20 0%nat DAMPING (world_AB (λ _, 0%Z))) = Ok t →
         dict_keys t = dict_keys corpus_AB
         ∧ ∀ t', result_table (iterate_pagerank 30 0%nat DAMPING
                                 (world_AB (λ i, Z.of_nat i))) = Ok t' → t' = t).
Proof.
  apply (transition_iterate_deterministic
           (world_AB (λ _, 0%Z)) (world_AB (λ i, Z.of_nat i)) 0%nat 0%nat
           corpus_AB "A" DAMPING 20 30).
  - reflexivity.
  - reflexivity.
  - apply wf_corpusb_true. vm_compute. reflexivity.
  - apply (bool_decide_unpack _). vm_compute. exact I.
Defined.

(** * The transition model sums to one (exact arithmetic) *)

Section TransitionSum.
Local Open Scope Q_scope.
Implicit Types (corpus : dict (gset string)) (w : world Q).

Lemma to_float_py_add (a b : number Q) :
  to_float (py_add a b) == to_float a + to_float b.
Proof.
  destruct a as [x|x], b as [y|y]; simpl; try reflexivity.
  by rewrite inject_Z_plus.
Qed.

Lemma to_float_sum_from (vs : list (number Q)) (acc : number Q) :
  to_float (fold_left py_add vs acc) == to_float acc + Qsum (to_float <$> vs).
Proof.
  revert acc. induction vs as [|v vs IH]; intros acc; simpl.
  - ring.
  - rewrite IH, to_float_py_add. symmetry. apply Qplus_assoc.
Qed.

Lemma dict_values_tabulate {V} (f : string → V) (ks : list string) :
  dict_values (tabulate f ks) = f <$> ks.
Proof.
  unfold dict_values, tabulate. rewrite <- list_fmap_compose.
  by apply list_fmap_ext.
Qed.

Lemma Qsum_const (x : Q) (ks : list string) :
  Qsum ((λ _, x) <$> ks) == inject_Z (Z.of_nat (length ks)) * x.
Proof.
  induction ks as [|k ks IH]; simpl length; simpl Qsum.
  - simpl. ring.
  - change (Qsum ((λ _, x) <$> k :: ks)) with (x + Qsum ((λ _, x) <$> ks)).
    rewrite IH, Nat2Z.inj_succ. unfold Z.succ. rewrite inject_Z_plus. ring.
Qed.

Lemma Qsum_indicator (links : gset string) (x y : Q) (ks : list string) :
  Qsum ((λ k, if bool_decide (k ∈ links) then x + y else x) <$> ks)
  == inject_Z (Z.of_nat (length ks)) * x
     + inject_Z (Z.of_nat (length (filter (λ k, k ∈ links) ks))) * y.
Proof.
  induction ks as [|k ks IH].
  - simpl. ring.
  - change (Qsum ((λ k, if bool_decide (k ∈ links) then x + y else x) <$> k :: ks))
      with ((if bool_decide (k ∈ links) then x + y else x)
            + Qsum ((λ k, if bool_decide (k ∈ links) then x + y else x) <$> ks)).
    rewrite IH. simpl length. rewrite Nat2Z.inj_succ. unfold Z.succ.
    rewrite inject_Z_plus. rewrite filter_cons.
    destruct (decide (k ∈ links)) as [Hin|Hnin].
    + rewrite bool_decide_eq_true_2 by done. simpl length.
      rewrite Nat2Z.inj_succ. unfold Z.succ. rewrite inject_Z_plus. ring.
    + rewrite bool_decide_eq_false_2 by done. ring.
Qed.

(** Every link leads into the corpus, so the pages of the corpus that are
    linked to are as many as the links. *)
Lemma linked_pages_count (links : gset string) (ks : list string) :
  NoDup ks → (∀ link, link ∈ links → link ∈ ks) →
  length (filter (λ k, k ∈ links) ks) = size links.
Proof.
  intros Hnd Hclosed.
  change (size links) with (length (elements links)).
  apply Permutation_length, NoDup_Permutation.
  - by apply NoDup_filter.
  - apply NoDup_elements.
  - intros k. rewrite list_elem_of_filter, elem_of_elements.
    split; [tauto | auto].
Qed.

Lemma inject_Z_nonzero (z : Z) : z ≠ 0%Z → ¬ inject_Z z == 0.
Proof.
  intros Hz Heq. apply Hz. by apply (inject_Z_injective z 0).
Qed.

Lemma distribution_sum corpus (links : gset string) (d : Q) :
  NoDup (dict_keys corpus) →
  dict_keys corpus ≠ [] →
  (∀ link, link ∈ links → link ∈ dict_keys corpus) →
  to_float (sum_values (distribution corpus links d)) == 1.
Proof.
  intros Hnd Hne Hclosed. unfold sum_values.
  rewrite to_float_sum_from. simpl to_float at 1.
  assert (HN : ¬ inject_Z (page_count corpus) == 0).
  { apply inject_Z_nonzero. unfold page_count.
    destruct (dict_keys corpus); [done | simpl; lia]. }
  unfold distribution.
  destruct (Z.of_nat (size links) =? 0)%Z eqn:Hsize.
  - rewrite dict_values_tabulate, <- list_fmap_compose.
    change (to_float ∘ (λ _ : string, Float (div (of_Z 1) (of_Z (page_count corpus)))))
      with (λ _ : string, 1 / inject_Z (page_count corpus)).
    rewrite Qsum_const. fold (page_count corpus). field. done.
  - apply Z.eqb_neq in Hsize.
    assert (HL : ¬ inject_Z (Z.of_nat (size links)) == 0)
      by by apply inject_Z_nonzero.
    rewrite dict_values_tabulate, <- list_fmap_compose.
    erewrite (list_fmap_ext _ (λ k, if bool_decide (k ∈ links)
        then (1 - d) / inject_Z (page_count corpus)
             + d / inject_Z (Z.of_nat (size links))
        else (1 - d) / inject_Z (page_count corpus))).
    2:{ intros i k _. simpl. by destruct (bool_decide (k ∈ links)). }
    rewrite Qsum_indicator, linked_pages_count by done.
    fold (page_count corpus). field. done.
Qed.


End TransitionSum.


(** * The graph builder *)

Lemma dict_get_NoDup {V} (k : string) (v : V) (d : dict V) :
  NoDup d.*1 → (k, v) ∈ d → dict_get k d = Some v.
Proof.
  induction d as [|[k' v'] d IH]; simpl.
  - intros _ Hin. by apply elem_of_nil in Hin.
  - intros Hnd Hin. apply NoDup_cons in Hnd as [Hnin Hnd].
    apply elem_of_cons in Hin as [Heq|Hin].
    + injection Heq as -> ->. by rewrite decide_True.
    + rewrite decide_False; [by apply IH|].
      intros ->. apply Hnin. apply list_elem_of_fmap. by exists (k', v).
Qed.

Section CrawlRestrict.
Context {num : Type} `{Arith num}.

Lemma crawl_restrict_loop (h : list (obj num)) (r : nat → Z)
    (raw : string → gset string) (ks : list string) :
  NoDup ks →
  for_each ks (λ filename (_ : unit),
    let* linked := getitem_set (length h) filename in
    let* present := keys (length h) in
    setitem_set (length h) filename (filter (λ link, link ∈ present) linked)) tt
    (World (h ++ [OCorpus (tabulate raw ks)]) r)
  = (Ok tt,
     World (h ++ [OCorpus (tabulate (λ f, filter (λ link, link ∈ ks) (raw f)) ks)]) r).
Proof.
  intros Hnd.
  set (tbl := λ done : list string,
         tabulate (λ f, if bool_decide (f ∈ done)
                        then filter (λ link, link ∈ ks) (raw f) else raw f) ks).
  destruct (for_each_ok
    (λ done (_ : unit) w, w = World (h ++ [OCorpus (tbl done)]) r)
    ks
    (λ filename (_ : unit),
      let* linked := getitem_set (length h) filename in
      let* present := keys (length h) in
      setitem_set (length h) filename (filter (λ link, link ∈ present) linked)) tt
    (World (h ++ [OCorpus (tabulate raw ks)]) r)) as ([] & w' & Hrun & ->).
  - assert (tbl [] = tabulate raw ks) as ->; [|done].
    apply tabulate_ext. intros k _.
    rewrite bool_decide_eq_false_2; [done|]. apply not_elem_of_nil.
  - intros done x rest [] w Hsplit ->.
    assert (Hx : x ∈ ks).
    { rewrite Hsplit. apply elem_of_app. right. apply list_elem_of_here. }
    assert (Hfresh : x ∉ done).
    { rewrite Hsplit in Hnd. apply NoDup_app in Hnd as (_ & Hdisj & _).
      intros Hin. apply (Hdisj x Hin). apply list_elem_of_here. }
    exists tt, (World (h ++ [OCorpus (tbl (done ++ [x]))]) r). split; [|done].
    erewrite bind_ok.
    2:{ eapply getitem_set_ok; [apply lookup_own|].
        unfold tbl. by apply dict_get_tabulate. }
    rewrite bool_decide_eq_false_2 by done.
    erewrite bind_ok; [|eapply keys_ok; apply lookup_own].
    erewrite setitem_set_ok; [|apply lookup_own]. simpl.
    rewrite insert_own.
    match goal with
    | |- (_, World (_ ++ [OCorpus ?A]) _) = (_, World (_ ++ [OCorpus ?B]) _) =>
        assert (A = B) as ->; [|done]
    end.
    transitivity (dict_set x (filter (λ link, link ∈ ks) (raw x)) (tbl done)).
    { f_equal. apply set_eq. intros link. rewrite !elem_of_filter.
      unfold tbl. by rewrite dict_keys_tabulate. }
    unfold tbl. rewrite dict_set_tabulate by done.
    apply tabulate_ext. intros k _.
    destruct (decide (k = x)) as [->|Hne].
    + rewrite bool_decide_eq_true_2; [done|].
      apply elem_of_app. right. apply list_elem_of_here.
    + apply (f_equal (λ b : bool, if b then _ else _)).
      apply bool_decide_ext. rewrite elem_of_app, list_elem_of_singleton.
      tauto.
  - rewrite Hrun.
    assert (tbl ks = tabulate (λ f, filter (λ link, link ∈ ks) (raw f)) ks)
      as ->; [|done].
    apply tabulate_ext. intros k Hk. by rewrite bool_decide_eq_true_2.
Qed.

End CrawlRestrict.

Section Crawl.
Context {num : Type} `{Arith num}.
Variable findall_href : string → list string.
Implicit Types (directory : list (string * string)).

Lemma crawl_extract_loop (h : list (obj num)) (r : nat → Z) directory :
  NoDup directory.*1 →
  for_each directory (λ '(filename, contents) (_ : unit),
    if negb (endswith filename ".html") then ret tt else
    let links := findall_href contents in
    setitem_set (length h) filename (list_to_set links ∖ {[filename]})) tt
    (World (h ++ [OCorpus []]) r)
  = (Ok tt,
     World (h ++ [OCorpus (tabulate (raw_links findall_href directory) (html_names directory))]) r).
Proof.
  intros Hnd.
  destruct (for_each_ok
    (λ done (_ : unit) w,
       w = World (h ++ [OCorpus (tabulate (raw_links findall_href directory) (html_names done))]) r)
    directory
    (λ '(filename, contents) (_ : unit),
      if negb (endswith filename ".html") then ret tt else
      let links := findall_href contents in
      setitem_set (length h) filename (list_to_set links ∖ {[filename]})) tt
    (World (h ++ [OCorpus []]) r)) as ([] & w' & Hrun & ->); [done| |done].
  intros done [filename contents] rest [] w Hsplit ->.
  exists tt. eexists. split; [|reflexivity].
  unfold html_names. rewrite fmap_app, filter_app. simpl.
  destruct (endswith filename ".html") eqn:Hhtml; simpl.
  - rewrite filter_cons_True by done. rewrite filter_nil.
    erewrite setitem_set_ok; [|apply lookup_own]. simpl. rewrite insert_own.
    rewrite dict_set_fresh.
    + rewrite tabulate_snoc. unfold raw_links at 3.
      rewrite (dict_get_NoDup filename contents directory Hnd); [done|].
      rewrite Hsplit. apply elem_of_app. right. apply list_elem_of_here.
    + rewrite dict_keys_tabulate. intros Hin.
      apply list_elem_of_filter in Hin as [_ Hin].
      rewrite Hsplit, fmap_app in Hnd. simpl in Hnd.
      apply NoDup_app in Hnd as (_ & Hdisj & _).
      apply (Hdisj filename Hin). apply list_elem_of_here.
  - rewrite filter_cons_False; [|unfold is_html; congruence].
    rewrite filter_nil, app_nil_r. done.
Qed.

(** [crawl] allocates the corpus, fills it in two passes and returns it. *)
Lemma crawl_run (w : world num) directory :
  NoDup directory.*1 →
  crawl findall_href directory w
  = (Ok (length (heap w)),
     World (heap w ++ [OCorpus (tabulate
              (λ f, filter (λ link, link ∈ html_names directory) (raw_links findall_href directory f))
              (html_names directory))]) (rng w)).
Proof.
  intros Hnd. destruct w as [h r]; simpl. unfold crawl.
  rewrite (bind_ok _ _ _ (length h) (World (h ++ [OCorpus []]) r)) by done.
  erewrite bind_ok; [|by apply crawl_extract_loop].
  erewrite bind_ok; [|eapply keys_ok; apply lookup_own]. simpl.
  rewrite dict_keys_tabulate.
  erewrite bind_ok; [done|]. apply crawl_restrict_loop.
  unfold html_names. by apply NoDup_filter.
Qed.

(** C7. The corpus [crawl] builds has the [.html] files as its pages, and
    gives each page as outbound set the extracted link targets minus the
    page's own name and minus every target that is not a page of the
    corpus; so no outbound set contains its own page, and every outbound
    set lies within the pages of the corpus. *)
Theorem crawl_outbound_sets (w : world num) directory :
  NoDup directory.*1 →
  ∃ corpus,
    crawl findall_href directory w
    = (Ok (length (heap w)), World (heap w ++ [OCorpus corpus]) (rng w))
    ∧ dict_keys corpus = html_names directory
    ∧ ∀ page contents,
        (page, contents) ∈ directory → is_html page →
        ∃ out, dict_get page corpus = Some out
          ∧ (∀ link, link ∈ out ↔
               link ∈ findall_href contents ∧ link ≠ page
               ∧ link ∈ dict_keys corpus)
          ∧ (page ∉ out)
          ∧ ∀ link, link ∈ out → link ∈ dict_keys corpus.
Proof.
  intros Hnd. eexists. split; [by apply crawl_run|].
  rewrite dict_keys_tabulate. split; [done|].
  intros page contents Hin Hhtml.
  assert (Hpage : page ∈ html_names directory).
  { apply list_elem_of_filter. split; [done|].
    apply list_elem_of_fmap. by exists (page, contents). }
  eexists. split; [by apply dict_get_tabulate|].
  unfold raw_links. rewrite (dict_get_NoDup page contents directory Hnd Hin).
  assert (Hout : ∀ link,
    link ∈ filter (λ link, link ∈ html_names directory)
             (list_to_set (findall_href contents) ∖ {[page]} : gset string) ↔
    link ∈ findall_href contents ∧ link ≠ page ∧ link ∈ html_names directory).
  { intros link. rewrite elem_of_filter, elem_of_difference,
      elem_of_list_to_set, elem_of_singleton. tauto. }
  split; [done|]. split.
  - intros Hself. apply Hout in Hself. tauto.
  - intros link Hlink. apply Hout in Hlink. tauto.
Qed.

End Crawl.

Lemma crawl_outbound_sets_witness :
  ∃ corpus,
    crawl sample_findall sample_directory (World [] (λ _, 0%Z) : world float)
    = (Ok 0%nat, World ([] ++ [OCorpus corpus]) (λ _, 0%Z))
    ∧ dict_keys corpus = html_names sample_directory
    ∧ ∀ page contents,
        (page, contents) ∈ sample_directory → is_html page →
        ∃ out, dict_get page corpus = Some out
          ∧ (∀ link, link ∈ out ↔
               link ∈ sample_findall contents ∧ link ≠ page
               ∧ link ∈ dict_keys corpus)
          ∧ (page ∉ out)
          ∧ ∀ link, link ∈ out → link ∈ dict_keys corpus.
Proof.
  apply (crawl_outbound_sets sample_findall (World [] (λ _, 0%Z)) sample_directory).
  apply (bool_decide_unpack _). vm_compute. exact I.
Defined.

(** * The solver updates ranks in place *)

Section InPlace.
Context {num : Type} `{Arith num}.
Implicit Types (corpus : dict (gset string)) (ans : dict (number num)).

Lemma rank_of_set_eq ans (k : string) v : rank_of (dict_set k v ans) k = v.
Proof. unfold rank_of. by rewrite dict_get_set_eq. Qed.

Lemma rank_of_set_ne ans (k k' : string) v :
  k ≠ k' → rank_of (dict_set k v ans) k' = rank_of ans k'.
Proof. intros Hne. unfold rank_of. by rewrite dict_get_set_ne. Qed.




Lemma rank_fold_untouched corpus (d : num) (ks : list string) st (k : string) :
  k ∉ ks → rank_of (fold_left (rank_step corpus d) ks st).1 k = rank_of st.1 k.
Proof.
  revert st. induction ks as [|k' ks IH]; intros st Hk; [done|].
  apply not_elem_of_cons in Hk as [Hne Hk].
  simpl. rewrite IH by done. simpl. by apply rank_of_set_ne.
Qed.

Section Pass.
Variables (corpus : dict (gset string)) (d : num) (ans : dict (number num)).
Variables (pre post : list string) (k : string).
Hypothesis Hnd : NoDup (dict_keys corpus).
Hypothesis Hsplit : dict_keys corpus = pre ++ k :: post.

Local Abbreviation during := (fold_left (rank_step corpus d) pre (ans, 0%Z)).
Local Abbreviation final := (rank_pass corpus d ans).

Lemma pass_split :
  final = fold_left (rank_step corpus d) post (rank_step corpus d during k).
Proof using Hsplit.
  unfold rank_pass. by rewrite Hsplit, fold_left_app.
Qed.

Lemma pass_fresh : (k ∉ pre) ∧ (k ∉ post) ∧ ∀ p, p ∈ pre → p ∉ k :: post.
Proof using Hnd Hsplit.
  rewrite Hsplit in Hnd. apply NoDup_app in Hnd as (_ & Hdisj & Hnd').
  apply NoDup_cons in Hnd' as [Hpost _].
  split; [|split; [done|]].
  - intros Hin. apply (Hdisj k Hin). apply list_elem_of_here.
  - intros p Hp. by apply Hdisj.
Qed.

(** When its turn comes, [k] still holds its rank of the previous pass. *)
Lemma pass_old : rank_of during.1 k = rank_of ans k.
Proof using Hnd Hsplit.
  rewrite rank_fold_untouched; [done|]. apply pass_fresh.
Qed.

(** What the pass leaves at [k] is the value computed at its turn. *)
Lemma pass_new : rank_of final.1 k = new_rank corpus d during.1 k.
Proof using Hnd Hsplit.
  rewrite pass_split.
  rewrite (rank_fold_untouched corpus d post) by apply pass_fresh.
  simpl. apply rank_of_set_eq.
Qed.


Lemma pass_count :
  (rank_step corpus d during k).2
  = (during.2 + if close_enough (rank_of ans k) (rank_of final.1 k) then 1 else 0)%Z.
Proof using Hnd Hsplit.
  rewrite pass_new. simpl. rewrite pass_old.
  destruct (close_enough _ _); lia.
Qed.

End Pass.
End InPlace.

Section PassInPlace.
Context {num : Type} `{Arith num}.
Implicit Types (corpus : dict (gset string)) (ans : dict (number num)).

Lemma filter_length_all {A} (P : A → Prop) `{∀ x, Decision (P x)} (l : list A) :
  length (filter P l) = length l ↔ Forall P l.
Proof.
  induction l as [|x l IH].
  - split; [by constructor | done].
  - rewrite filter_cons. destruct (decide (P x)) as [HP|HP]; simpl.
    + rewrite Forall_cons. split.
      * intros Hlen. split; [done|]. apply IH. lia.
      * intros [_ Hall]. f_equal. by apply IH.
    + split.
      * intros Hlen. pose proof (length_filter P l). lia.
      * intros Hall. by apply Forall_cons in Hall as [? _].
Qed.

(** The counter of a pass counts the pages whose new rank is within the
    threshold of their rank before the pass. *)
Lemma pass_count_prefix corpus (d : num) ans (pre post : list string) :
  NoDup (dict_keys corpus) →
  dict_keys corpus = pre ++ post →
  (fold_left (rank_step corpus d) pre (ans, 0%Z)).2
  = Z.of_nat (length (filter
      (λ k, close_enough (rank_of ans k) (rank_of (rank_pass corpus d ans).1 k) = true)
      pre)).
Proof.
  intros Hnd. revert post. induction pre as [|k pre IH] using rev_ind; intros post Hsplit.
  - done.
  - rewrite <- app_assoc in Hsplit. simpl in Hsplit.
    rewrite fold_left_app. simpl fold_left.
    rewrite (pass_count corpus d ans pre post k Hnd Hsplit).
    rewrite (IH (k :: post) Hsplit).
    rewrite filter_app, length_app, filter_cons, filter_nil.
    destruct (close_enough _ _); simpl; lia.
Qed.

Lemma pass_counts_all corpus (d : num) ans :
  NoDup (dict_keys corpus) →
  ((rank_pass corpus d ans).2 =? page_count corpus)%Z = true ↔
  ∀ k, k ∈ dict_keys corpus →
    close_enough (rank_of ans k) (rank_of (rank_pass corpus d ans).1 k) = true.
Proof.
  intros Hnd. unfold rank_pass at 1.
  rewrite (pass_count_prefix corpus d ans (dict_keys corpus) [])
    by (done || by rewrite app_nil_r).
  unfold page_count. rewrite Z.eqb_eq, Nat2Z.inj_iff, filter_length_all.
  by rewrite Forall_forall.
Qed.


End PassInPlace.



(** * Convergence: what the solver returns *)

Section Convergence.
Context {num : Type} `{Arith num}.
Implicit Types (corpus : dict (gset string)) (ans : dict (number num)).

(** A run that returns has made some passes that did not count every page,
    then one that did, and returns the table of that last pass. *)
Lemma rank_iterate_last_pass fuel corpus (d : num) ans :
  (rank_iterate fuel corpus d ans).1 = true →
  ∃ n, (n < fuel)%nat
       ∧ ((rank_pass corpus d (passes n corpus d ans)).2 =? page_count corpus)%Z = true
       ∧ (rank_iterate fuel corpus d ans).2
         = (rank_pass corpus d (passes n corpus d ans)).1.
Proof.
  revert ans. induction fuel as [|fuel IH]; intros ans; simpl; [done|].
  destruct ((rank_pass corpus d ans).2 =? page_count corpus)%Z eqn:Hcount.
  - intros _. exists 0%nat. simpl. split; [lia | done].
  - intros Hok. destruct (IH _ Hok) as (n & Hn & Hlast & Hres).
    exists (S n). unfold passes in *. rewrite Nat.iter_succ_r.
    split; [lia | done].
Qed.

(** C8, as the code has it. When [iterate_pagerank] returns, the table it
    returns is the outcome of a last pass that changed no page's rank by
    the threshold 0.001 or more. *)
Theorem last_pass_within_threshold (w : world num) (c : loc) corpus (d : num)
    (fuel : nat) (t : dict (number num)) :
  heap w !! c = Some (OCorpus corpus) →
  NoDup (dict_keys corpus) →
  result_table (iterate_pagerank fuel c d w) = Ok t →
  ∃ n, (n < fuel)%nat
       ∧ t = (rank_pass corpus d (passes n corpus d (initial_ranks corpus))).1
       ∧ ∀ k, k ∈ dict_keys corpus →
           close_enough (rank_of (passes n corpus d (initial_ranks corpus)) k)
                        (rank_of t k) = true.
Proof.
  intros Hc Hnd. rewrite (iterate_pagerank_result w c corpus d fuel Hc Hnd).
  destruct (rank_iterate fuel corpus d (initial_ranks corpus)).1 eqn:Hok; [|done].
  intros [= <-].
  destruct (rank_iterate_last_pass fuel corpus d _ Hok) as (n & Hn & Hcount & Hres).
  exists n. split; [done|]. split; [done|].
  rewrite Hres. by apply pass_counts_all.
Qed.

End Convergence.

Lemma corpus_AB_NoDup : NoDup (dict_keys corpus_AB).
Proof. apply (bool_decide_unpack _). vm_compute. exact I. Qed.

(** The solver on [{A: {B}, B: {}}] with damping 0.85: sixteen passes. *)
Lemma rank_iterate_AB :
  rank_iterate 16 corpus_AB DAMPING (initial_ranks corpus_AB)
  = (true, [("A"%string, Float 0x1.6589a7e391999p-2%float);
            ("B"%string, Float 0x1.4ab8ee7f4d148p-1%float)]).
Proof. vm_compute. reflexivity. Qed.

(** The same corpus with B listed first: thirteen passes. *)
Lemma rank_iterate_BA :
  rank_iterate 13 corpus_BA DAMPING (initial_ranks corpus_BA)
  = (true, [("B"%string, Float 0x1.4e29742d02956p-1%float);
            ("A"%string, Float 0x1.68d66f8ca8989p-2%float)]).
Proof. vm_compute. reflexivity. Qed.

(** C3, as the code has it. On [{A: {B}, B: {}}] with damping 0.85,
    whichever of the two pages the corpus lists first, the solver returns
    with the rank of A within 0.004 of 0.351 and the rank of B within 0.004
    of 0.649: the ranks are not equal, the sink B, which A links to, ranks
    higher than A. *)
Theorem iterate_AB_converges (draws : nat → Z) (k : nat) :
  (∃ a b,
      result_table (iterate_pagerank (16 + k) 0%nat DAMPING
                      (World [OCorpus corpus_AB] draws))
      = Ok [("A"%string, Float a); ("B"%string, Float b)]
      ∧ between (milli 347) a (milli 355) = true
      ∧ between (milli 645) b (milli 653) = true
      ∧ PrimFloat.ltb a b = true)
  ∧ (∃ a b,
      result_table (iterate_pagerank (16 + k) 0%nat DAMPING
                      (World [OCorpus corpus_BA] draws))
      = Ok [("B"%string, Float b); ("A"%string, Float a)]
      ∧ between (milli 347) a (milli 355) = true
      ∧ between (milli 645) b (milli 653) = true
      ∧ PrimFloat.ltb a b = true).
Proof.
  split.
  - rewrite (iterate_pagerank_result _ 0%nat corpus_AB)
      by (done || apply corpus_AB_NoDup).
    rewrite rank_iterate_more by (by rewrite rank_iterate_AB).
    rewrite rank_iterate_AB. simpl. do 2 eexists. split; [reflexivity|].
    vm_compute. done.
  - rewrite (iterate_pagerank_result _ 0%nat corpus_BA);
      [|done|apply (bool_decide_unpack _); vm_compute; exact I].
    replace (16 + k)%nat with (13 + (3 + k))%nat by lia.
    rewrite rank_iterate_more by (by rewrite rank_iterate_BA).
    rewrite rank_iterate_BA. simpl. do 2 eexists. split; [reflexivity|].
    vm_compute. done.
Qed.

(** On [{A: {B}, B: {}}] with damping 0.85 no run of the solver returns
    ranks within 0.001 of 0.5 for both pages. *)
Lemma iterate_AB_not_half :
  ¬ ∃ (fuel : nat) (a b : float),
      result_table (iterate_pagerank fuel 0%nat DAMPING (world_AB (λ _, 0%Z)))
      = Ok [("A"%string, Float a); ("B"%string, Float b)]
      ∧ between (milli 499) a (milli 501) = true
      ∧ between (milli 499) b (milli 501) = true.
Proof.
  intros (fuel & a & b & Hres & Ha & Hb).
  rewrite (iterate_pagerank_result _ 0%nat corpus_AB) in Hres
    by (done || apply corpus_AB_NoDup).
  destruct (rank_iterate fuel corpus_AB DAMPING (initial_ranks corpus_AB)).1 eqn:Hok;
    [|done].
  rewrite (rank_iterate_agree fuel 16) in Hres
    by (done || by rewrite rank_iterate_AB).
  rewrite rank_iterate_AB in Hres. simpl in Hres.
  injection Hres as <- <-. vm_compute in Ha. discriminate.
Qed.

Lemma last_pass_within_threshold_witness :
  ∃ n, (n < 16)%nat
       ∧ [("A"%string, Float 0x1.6589a7e391999p-2%float);
          ("B"%string, Float 0x1.4ab8ee7f4d148p-1%float)]
         = (rank_pass corpus_AB DAMPING
              (passes n corpus_AB DAMPING (initial_ranks corpus_AB))).1
       ∧ ∀ k, k ∈ dict_keys corpus_AB →
           close_enough
             (rank_of (passes n corpus_AB DAMPING (initial_ranks corpus_AB)) k)
             (rank_of [("A"%string, Float 0x1.6589a7e391999p-2%float);
                       ("B"%string, Float 0x1.4ab8ee7f4d148p-1%float)] k) = true.
Proof.
  apply (last_pass_within_threshold (world_AB (λ _, 0%Z)) 0%nat corpus_AB DAMPING 16).
  - reflexivity.
  - apply (bool_decide_unpack _). vm_compute. exact I.
  - vm_compute. reflexivity.
Defined.

(** On [corpus_chain] with damping 0.85 the solver returns after six
    passes; one more pass on the table it returned moves the rank of e by
    more than 0.0015. *)
Lemma one_more_pass_moves :
  ∃ (ans : loc) (w : world float) (t t' : dict (number float)),
    iterate_pagerank 6 0%nat DAMPING (World [OCorpus corpus_chain] (λ _, 0%Z))
    = (Ok ans, w)
    ∧ heap w !! ans = Some (OTable t)
    ∧ heap (update_pass 0%nat ans 5 DAMPING w).2 !! ans = Some (OTable t')
    ∧ PrimFloat.ltb (div (of_Z 15) (of_Z 10000))
        (abs (sub (to_float (rank_of t' "e")) (to_float (rank_of t "e")))) = true.
Proof.
  exists 1%nat.
  exists (iterate_pagerank 6 0%nat DAMPING (World [OCorpus corpus_chain] (λ _, 0%Z))).2.
  exists (rank_iterate 6 corpus_chain DAMPING (initial_ranks corpus_chain)).2.
  exists (rank_pass corpus_chain DAMPING
            (rank_iterate 6 corpus_chain DAMPING (initial_ranks corpus_chain)).2).1.
  split; [vm_compute; reflexivity|].
  split; [vm_compute; reflexivity|].
  split; [vm_compute; reflexivity|].
  vm_compute. reflexivity.
Qed.

(** * The sampling estimator counts one visit too many *)

Section Sampling.
Context {num : Type} `{Arith num}.
Implicit Types (corpus : dict (gset string)) (w : world num).

Lemma nth_elem_of {A} (xs : list A) (x0 : A) (i : nat) :
  (i < length xs)%nat → nth i xs x0 ∈ xs.
Proof.
  intros Hi. apply list_elem_of_In. by apply nth_In.
Qed.

Lemma random_choice_run {A} (xs : list A) w :
  xs ≠ [] →
  ∃ x, x ∈ xs ∧ random_choice xs w = (Ok x, after_draw w).
Proof.
  intros Hne. destruct xs as [|x0 xs]; [done|].
  eexists. split; [|reflexivity].
  apply nth_elem_of.
  pose proof (Z.mod_pos_bound (rng w 0%nat) (Z.of_nat (length (x0 :: xs)))) as Hb.
  simpl length in *. lia.
Qed.

(** The search stays between its bounds. *)
Lemma bisect_loop_bound (span : nat) (cum : list num) (x : num) (lo hi : nat) :
  (lo ≤ hi)%nat →
  (lo ≤ bisect_loop span cum x lo hi ≤ hi)%nat.
Proof.
  revert lo hi. induction span as [|span IH]; intros lo hi Hle;
    cbn [bisect_loop]; [lia|].
  destruct (Nat.ltb_spec lo hi) as [Hlt|_]; [|lia].
  pose proof (Nat.div_mod_eq (lo + hi) 2) as Hdiv.
  pose proof (Nat.mod_upper_bound (lo + hi) 2) as Hmod.
  set (mid := ((lo + hi) / 2)%nat) in *.
  destruct (ltb x _).
  - specialize (IH lo mid). lia.
  - specialize (IH (mid + 1)%nat hi). lia.
Qed.

(** [hi - lo] rounds are enough: the loop ends by its own test, and more
    rounds change nothing. *)
Lemma bisect_loop_more (span k : nat) (cum : list num) (x : num) (lo hi : nat) :
  (hi - lo ≤ span)%nat →
  bisect_loop (span + k) cum x lo hi = bisect_loop span cum x lo hi.
Proof.
  revert lo hi. induction span as [|span IH]; intros lo hi Hspan.
  - destruct k as [|k]; cbn [bisect_loop Nat.add]; [done|].
    destruct (Nat.ltb_spec lo hi) as [Hlt|_]; [lia|done].
  - cbn [bisect_loop Nat.add]. destruct (Nat.ltb_spec lo hi) as [Hlt|_]; [|done].
    pose proof (Nat.div_mod_eq (lo + hi) 2) as Hdiv.
    pose proof (Nat.mod_upper_bound (lo + hi) 2) as Hmod.
    set (mid := ((lo + hi) / 2)%nat) in *.
    destruct (ltb x _); apply IH; lia.
Qed.

Lemma bisect_bound (cum : list num) (x : num) (hi : nat) : (bisect cum x hi ≤ hi)%nat.
Proof. unfold bisect. pose proof (bisect_loop_bound hi cum x 0 hi). lia. Qed.

Lemma length_accumulate_from (acc : num) (ws : list num) :
  length (accumulate_from acc ws) = length ws.
Proof.
  revert acc. induction ws as [|x ws IH]; intros acc; simpl; [done|].
  by rewrite IH.
Qed.

Lemma length_accumulate (ws : list num) : length (accumulate ws) = length ws.
Proof. destruct ws; simpl; [done|]. by rewrite length_accumulate_from. Qed.

Lemma random_choices_run (population : list string) (weights : list (number num)) w :
  population ≠ [] →
  length weights = length population →
  leb (total_weight weights) (of_Z 0) = false →
  isfinite (total_weight weights) = true →
  ∃ x, x ∈ population
       ∧ random_choices population weights w = (Ok x, after_draw w).
Proof.
  intros Hne Hlen Htotal Hfinite. unfold random_choices.
  rewrite length_accumulate, length_fmap, Hlen, Nat.eqb_refl. simpl.
  destruct population as [|x0 population]; [done|].
  fold (total_weight weights). rewrite Htotal, Hfinite. simpl negb. cbv iota.
  eexists. split; [|reflexivity].
  apply nth_elem_of.
  pose proof (bisect_bound (accumulate (to_float <$> weights))
    (mul (div (of_Z (rng w 0%nat mod 2 ^ 53)) (of_Z (2 ^ 53))) (total_weight weights))
    (length (x0 :: population) - 1)) as Hb.
  simpl length in *. lia.
Qed.

End Sampling.

Section SamplingRun.
Context {num : Type} `{Arith num}.
Implicit Types (corpus : dict (gset string)) (cnt : string → Z).

Lemma sumZ_bump_notin (page : string) cnt (ks : list string) :
  page ∉ ks → sumZ (bump page cnt) ks = sumZ cnt ks.
Proof.
  induction ks as [|k ks IH]; intros Hnin; [done|].
  apply not_elem_of_cons in Hnin as [Hne Hnin].
  simpl. rewrite IH by done. unfold bump. by rewrite decide_False.
Qed.

Lemma sumZ_bump (page : string) cnt (ks : list string) :
  NoDup ks → page ∈ ks → sumZ (bump page cnt) ks = (sumZ cnt ks + 1)%Z.
Proof.
  induction ks as [|k ks IH]; intros Hnd Hin.
  - by apply elem_of_nil in Hin.
  - apply NoDup_cons in Hnd as [Hnin Hnd]. simpl.
    destruct (decide (k = page)) as [->|Hne].
    + rewrite sumZ_bump_notin by done. unfold bump.
      rewrite decide_True by done. lia.
    + apply elem_of_cons in Hin as [?|Hin]; [congruence|].
      rewrite IH by done. unfold bump. rewrite decide_False by done. lia.
Qed.

Lemma fill_loop_value (h : list (obj num)) (r : nat → Z) (v : number num)
    (ks : list string) (t : dict (number num)) :
  for_each ks (λ key (_ : unit), setitem (length h) key v) tt
    (World (h ++ [OTable t]) r)
  = (Ok tt, World (h ++ [OTable (fold_left (λ t k, dict_set k v t) ks t)]) r).
Proof.
  revert t. induction ks as [|k ks IH]; intros t; simpl; [done|].
  erewrite bind_ok; [|apply setitem_ok, lookup_own].
  simpl. rewrite insert_own. apply IH.
Qed.

Section Visits.
Variables (h junk : list (obj num)) (r : nat → Z) (cnt : string → Z).
Variables (ks : list string) (page : string).
Hypothesis Hnd : NoDup ks.
Hypothesis Hpage : page ∈ ks.

(** [cont[page] += 1] *)
Lemma visit_run {A} (k : unit → M num A) :
  (let* c := getitem (length h) page in
   let* u := setitem (length h) page (py_add c (Int 1)) in
   k u) (World (h ++ OTable (counters cnt ks) :: junk) r)
  = k tt (World (h ++ OTable (counters (bump page cnt) ks) :: junk) r).
Proof using Hnd Hpage.
  erewrite bind_ok.
  2:{ eapply getitem_ok; [apply lookup_own|]. by apply dict_get_tabulate. }
  erewrite bind_ok; [|apply setitem_ok, lookup_own].
  simpl. rewrite insert_own.
  unfold counters. rewrite dict_set_tabulate by done.
  erewrite (tabulate_ext _ (λ k0, Int (bump page cnt k0))); [done|].
  intros k0 _. unfold bump. by destruct (decide (k0 = page)) as [->|].
Qed.

End Visits.

Section Walk.
Variables (h : list (obj num)) (c : loc) (corpus : dict (gset string)) (d : num).
Hypothesis Hc : h !! c = Some (OCorpus corpus).
Hypothesis Hwf : wf_corpus corpus.
Hypothesis Hmass : positive_mass corpus d.

Lemma bump_nonneg (page : string) cnt :
  (∀ k, 0 ≤ cnt k)%Z → (∀ k, 0 ≤ bump page cnt k)%Z.
Proof.
  intros Hcnt k. unfold bump. specialize (Hcnt k). destruct (decide _); lia.
Qed.

Lemma sample_step_run (i : Z) (page : string) (visits : Z) (w : world num) :
  walking h corpus visits page w →
  ∃ page' w', sample_step c (length h) d i page w = (Ok page', w')
              ∧ walking h corpus (visits + 1) page' w'.
Proof using Hc Hwf Hmass.
  intros (cnt & junk & r & -> & Hpage & Hcnt & Hsum).
  destruct Hwf as [Hnd Hclosed].
  destruct (dict_get_is_Some page corpus Hpage) as [links Hlinks].
  set (w := World (h ++ OTable (counters cnt (dict_keys corpus)) :: junk) r).
  set (dist := distribution corpus links d).
  assert (Hkeys : dict_keys dist = dict_keys corpus).
  { unfold dist, distribution. destruct (_ =? _)%Z; apply dict_keys_tabulate. }
  destruct (random_choices_run (dict_keys corpus) (dict_values dist)
              (World (heap w ++ [OTable dist]) r)) as (page' & Hpage' & Hdraw).
  { intros Hnil. rewrite Hnil in Hpage. by apply elem_of_nil in Hpage. }
  { unfold dict_values. rewrite length_fmap. rewrite <- Hkeys.
    unfold dict_keys. by rewrite length_fmap. }
  { by apply (Hmass page links). }
  { by apply (Hmass page links). }
  exists page'. eexists. split.
  - unfold sample_step.
    erewrite bind_ok.
    2:{ apply (transition_model_run w c corpus page links d); [|done..|].
        - by apply lookup_old.
        - intros link. apply (Hclosed page links link Hlinks). }
    erewrite bind_ok; [|eapply keys_ok; apply (lookup_own (heap w) [])].
    erewrite bind_ok; [|eapply values_ok; apply (lookup_own (heap w) [])].
    simpl keys_of. fold dist. rewrite Hkeys.
    erewrite bind_ok; [|apply Hdraw].
    unfold after_draw, w. simpl heap. rewrite <- app_assoc. simpl app.
    rewrite (visit_run h _ _ cnt (dict_keys corpus) page' Hnd Hpage'
               (λ _, ret page')).
    reflexivity.
  - exists (bump page' cnt). do 2 eexists. split; [reflexivity|].
    split; [done|]. split; [by apply bump_nonneg|].
    rewrite sumZ_bump by done. lia.
Qed.

Lemma walk_run (steps : list Z) (page : string) (visits : Z) (w : world num) :
  walking h corpus visits page w →
  ∃ page' w', for_each steps (sample_step c (length h) d) page w = (Ok page', w')
              ∧ walking h corpus (visits + Z.of_nat (length steps)) page' w'.
Proof using Hc Hwf Hmass.
  revert page visits w. induction steps as [|i steps IH]; intros page visits w Hw.
  - exists page, w. split; [done|]. by rewrite Z.add_0_r.
  - destruct (sample_step_run i page visits w Hw) as (page1 & w1 & Hstep & Hw1).
    destruct (IH page1 (visits + 1)%Z w1 Hw1) as (page' & w' & Hrun & Hw').
    exists page', w'. split.
    + simpl. by rewrite (bind_ok _ _ _ _ _ Hstep).
    + replace (visits + Z.of_nat (length (i :: steps)))%Z
        with (visits + 1 + Z.of_nat (length steps))%Z by (simpl length; lia).
      done.
Qed.

End Walk.
End SamplingRun.

Section SamplingResult.
Context {num : Type} `{Arith num}.
Implicit Types (corpus : dict (gset string)) (cnt : string → Z).

(** [for key in cont: cont[key] = cont[key] / n] *)
Lemma divide_loop (h junk : list (obj num)) (r : nat → Z) cnt
    (ks : list string) (n : Z) :
  NoDup ks → n ≠ 0%Z →
  for_each ks (λ key (_ : unit),
    let* c := getitem (length h) key in
    let* p := truediv c n in
    setitem (length h) key p) tt
    (World (h ++ OTable (counters cnt ks) :: junk) r)
  = (Ok tt,
     World (h ++ OTable (tabulate (λ k, Float (div (of_Z (cnt k)) (of_Z n))) ks)
              :: junk) r).
Proof.
  intros Hnd Hn.
  set (tbl := λ done : list string,
         tabulate (λ k, if bool_decide (k ∈ done)
                        then Float (div (of_Z (cnt k)) (of_Z n))
                        else Int (cnt k)) ks).
  destruct (for_each_ok
    (λ done (_ : unit) w, w = World (h ++ OTable (tbl done) :: junk) r)
    ks
    (λ key (_ : unit),
      let* c := getitem (length h) key in
      let* p := truediv c n in
      setitem (length h) key p) tt
    (World (h ++ OTable (counters cnt ks) :: junk) r)) as ([] & w' & Hrun & ->).
  - assert (tbl [] = counters cnt ks) as ->; [|done].
    apply tabulate_ext. intros k _.
    rewrite bool_decide_eq_false_2; [done|]. apply not_elem_of_nil.
  - intros done x rest [] w Hsplit ->.
    assert (Hx : x ∈ ks).
    { rewrite Hsplit. apply elem_of_app. right. apply list_elem_of_here. }
    assert (Hfresh : x ∉ done).
    { rewrite Hsplit in Hnd. apply NoDup_app in Hnd as (_ & Hdisj & _).
      intros Hin. apply (Hdisj x Hin). apply list_elem_of_here. }
    exists tt, (World (h ++ OTable (tbl (done ++ [x])) :: junk) r). split; [|done].
    erewrite bind_ok.
    2:{ eapply getitem_ok; [apply lookup_own|].
        unfold tbl. by apply dict_get_tabulate. }
    rewrite bool_decide_eq_false_2 by done.
    erewrite bind_ok; [|by apply truediv_ok].
    erewrite setitem_ok; [|apply lookup_own]. simpl. rewrite insert_own.
    assert (dict_set x (Float (div (of_Z (cnt x)) (of_Z n))) (tbl done)
            = tbl (done ++ [x])) as ->; [|done].
    unfold tbl. rewrite dict_set_tabulate by done.
    apply tabulate_ext. intros k _.
    destruct (decide (k = x)) as [->|Hne].
    + rewrite bool_decide_eq_true_2; [done|].
      apply elem_of_app. right. apply list_elem_of_here.
    + apply (f_equal (λ b : bool, if b then _ else _)).
      apply bool_decide_ext. rewrite elem_of_app, list_elem_of_singleton.
      tauto.
  - rewrite Hrun.
    assert (tbl ks = tabulate (λ k, Float (div (of_Z (cnt k)) (of_Z n))) ks)
      as ->; [|done].
    apply tabulate_ext. intros k Hk. by rewrite bool_decide_eq_true_2.
Qed.

(** [sample_pagerank] returns, for some visit counters that add up to
    [n + 1], the table of the counters divided by [n]. *)
Lemma sample_pagerank_run (w : world num) (c : loc) corpus (d : num) (n : Z) :
  heap w !! c = Some (OCorpus corpus) →
  wf_corpus corpus →
  dict_keys corpus ≠ [] →
  (0 < n)%Z →
  positive_mass corpus d →
  ∃ cnt, (∀ k, 0 ≤ cnt k)%Z
         ∧ sumZ cnt (dict_keys corpus) = (n + 1)%Z
         ∧ result_table (sample_pagerank c d n w)
           = Ok (tabulate (λ k, Float (div (of_Z (cnt k)) (of_Z n)))
                          (dict_keys corpus)).
Proof.
  intros Hc Hwf Hne Hn Hmass. destruct w as [h r]; simpl in Hc.
  pose proof Hwf as [Hnd _].
  destruct (random_choice_run (dict_keys corpus)
              (World (h ++ [OTable (counters (λ _, 0%Z) (dict_keys corpus))]) r) Hne)
    as (page0 & Hpage0 & Hchoice).
  destruct (walk_run h c corpus d Hc Hwf Hmass (range n) page0 1
              (World (h ++ OTable (counters (bump page0 (λ _, 0%Z)) (dict_keys corpus)) :: [])
                     (λ i, r (S i))))
    as (page' & w' & Hwalk & cnt & junk & r' & -> & _ & Hcnt & Hsum).
  { exists (bump page0 (λ _, 0%Z)), [], (λ i, r (S i)).
    split; [done|]. split; [done|]. split; [by apply bump_nonneg|].
    rewrite sumZ_bump by done.
    assert (Hzero : ∀ ks, sumZ (λ _ : string, 0%Z) ks = 0%Z).
    { induction ks as [|k ks IH]; simpl; [done | by rewrite IH]. }
    by rewrite Hzero. }
  exists cnt. split; [done|]. split.
  { rewrite Hsum. unfold range. rewrite length_fmap, length_seq. lia. }
  unfold sample_pagerank.
  rewrite (bind_ok _ _ _ (length h) (World (h ++ [OTable []]) r)) by done.
  erewrite bind_ok; [|eapply keys_ok; by apply lookup_old].
  erewrite bind_ok; [|apply fill_loop_value].
  rewrite fill_tabulate_nil by done.
  erewrite bind_ok; [|eapply keys_ok; by apply lookup_old].
  erewrite bind_ok; [|apply Hchoice].
  unfold after_draw. simpl heap. simpl rng.
  rewrite (visit_run h [] _ (λ _, 0%Z) (dict_keys corpus) page0 Hnd Hpage0).
  erewrite bind_ok; [|apply Hwalk].
  erewrite bind_ok; [|eapply keys_ok; apply lookup_own].
  simpl keys_of. unfold counters at 1. rewrite dict_keys_tabulate.
  erewrite bind_ok; [|apply divide_loop; [done | lia]].
  unfold result_table, ret. simpl. by rewrite lookup_own.
Qed.

End SamplingResult.

Lemma positive_mass_A : positive_mass corpus_A DAMPING.
Proof.
  intros page links Hget. unfold corpus_A in Hget. simpl in Hget.
  case_decide; [|done]. injection Hget as <-. split; vm_compute; reflexivity.
Qed.

(** C2, at a failing input. On the one-page corpus with [n = 1],
    whatever the random source draws, [sample_pagerank] counts the
    starting page and then the one sampled page, and returns
    [{A: 2.0}]: the values add up to 2, not to 1. *)
Theorem sample_single_page_counts_two (draws : nat → Z) :
  result_table (sample_pagerank 0%nat DAMPING 1 (World [OCorpus corpus_A] draws))
  = Ok [("A"%string, Float 2%float)].
Proof.
  destruct (sample_pagerank_run (World [OCorpus corpus_A] draws) 0%nat corpus_A
              DAMPING 1) as (cnt & _ & Hsum & ->).
  - reflexivity.
  - apply wf_corpusb_true. vm_compute. reflexivity.
  - done.
  - lia.
  - apply positive_mass_A.
  - simpl in Hsum. rewrite Z.add_0_r in Hsum.
    simpl. rewrite Hsum. vm_compute. reflexivity.
Qed.

(** In exact arithmetic, on every corpus: the values [sample_pagerank]
    returns are integer counters over [n] that add up to [(n + 1) / n]. *)
Section SamplingSum.
Local Open Scope Q_scope.
Implicit Types (corpus : dict (gset string)) (cnt : string → Z).

Lemma last_accumulate_from (acc dflt : Q) (ws : list Q) :
  List.last (acc :: accumulate_from acc ws) dflt == acc + Qsum ws.
Proof.
  revert acc. induction ws as [|x ws IH]; intros acc.
  - simpl. ring.
  - change (List.last (acc :: accumulate_from acc (x :: ws)) dflt)
      with (List.last (add acc x :: accumulate_from (add acc x) ws) dflt).
    rewrite IH. simpl. ring.
Qed.

Lemma last_accumulate (ws : list Q) : List.last (accumulate ws) 0 == Qsum ws.
Proof.
  destruct ws as [|x ws]; [reflexivity|].
  unfold accumulate. apply last_accumulate_from.
Qed.

Lemma positive_mass_Q corpus (d : Q) : wf_corpus corpus → positive_mass corpus d.
Proof.
  intros [Hnd Hclosed] page links Hget.
  assert (Hsum : total_weight (dict_values (distribution corpus links d)) == 1).
  { unfold total_weight. simpl add. simpl of_Z. rewrite last_accumulate.
    rewrite <- (distribution_sum corpus links d Hnd).
    - unfold sum_values. rewrite to_float_sum_from. simpl. ring.
    - apply dict_get_Some_elem in Hget. intros Hnil. rewrite Hnil in Hget.
      by apply elem_of_nil in Hget.
    - intros link. apply (Hclosed page links link Hget). }
  split; [|done].
  change (Qle_bool (total_weight (dict_values (distribution corpus links d))) 0 = false).
  destruct (Qle_bool _ 0) eqn:Hle; [|done].
  apply Qle_bool_iff in Hle. rewrite Hsum in Hle. done.
Qed.

Lemma Qsum_counters cnt (n : Z) (ks : list string) :
  ¬ inject_Z n == 0 →
  Qsum ((λ k, inject_Z (cnt k) / inject_Z n) <$> ks)
  == inject_Z (sumZ cnt ks) / inject_Z n.
Proof.
  intros Hn. induction ks as [|k ks IH].
  - simpl. field. done.
  - change (Qsum ((λ k, inject_Z (cnt k) / inject_Z n) <$> k :: ks))
      with (inject_Z (cnt k) / inject_Z n
            + Qsum ((λ k, inject_Z (cnt k) / inject_Z n) <$> ks)).
    rewrite IH. simpl sumZ. rewrite inject_Z_plus. field. done.
Qed.

Lemma sample_values_sum (w : world Q) (c : loc) corpus (d : Q) (n : Z) :
  heap w !! c = Some (OCorpus corpus) →
  wf_corpus corpus →
  dict_keys corpus ≠ [] →
  (0 < n)%Z →
  ∃ t cnt,
    result_table (sample_pagerank c d n w) = Ok t
    ∧ t = tabulate (λ k, Float (inject_Z (cnt k) / inject_Z n)) (dict_keys corpus)
    ∧ to_float (sum_values t) == (inject_Z n + 1) / inject_Z n
    ∧ ¬ to_float (sum_values t) == 1.
Proof.
  intros Hc Hwf Hne Hn.
  destruct (sample_pagerank_run w c corpus d n Hc Hwf Hne Hn
              (positive_mass_Q corpus d Hwf)) as (cnt & Hcnt & Hsum & Hres).
  eexists. exists cnt. split; [done|]. split; [done|].
  assert (Hn0 : ¬ inject_Z n == 0) by (apply inject_Z_nonzero; lia).
  assert (Htotal : to_float (sum_values
            (tabulate (λ k, Float (div (of_Z (cnt k)) (of_Z n))) (dict_keys corpus)))
          == (inject_Z n + 1) / inject_Z n).
  { unfold sum_values. rewrite to_float_sum_from, dict_values_tabulate.
    rewrite <- list_fmap_compose.
    change (to_float ∘ (λ k : string, Float (div (of_Z (cnt k)) (of_Z n))))
      with (λ k : string, inject_Z (cnt k) / inject_Z n).
    rewrite Qsum_counters by done. rewrite Hsum, inject_Z_plus. simpl. field. done. }
  split; [done|].
  rewrite Htotal. intros Heq.
  assert (Hcontra : inject_Z n + 1 == (inject_Z n + 1) / inject_Z n * inject_Z n)
    by (field; done).
  rewrite Heq, Qmult_1_l in Hcontra.
  change 1 with (inject_Z 1) in Hcontra. rewrite <- inject_Z_plus in Hcontra.
  apply (proj1 (inject_Z_injective _ _)) in Hcontra. lia.
Qed.

End SamplingSum.

(** * The model at work on binary64 *)

(** The threshold of the model is the double the literal [0.001] denotes. *)
Example threshold_double :
  threshold = Float 0x1.0624dd2f1a9fcp-10%float.
Proof. vm_compute. reflexivity. Qed.

(** [DAMPING] is the correctly rounded quotient of 85 by 100. *)
Example DAMPING_quotient : DAMPING = div (of_Z 85) (of_Z 100).
Proof. vm_compute. reflexivity. Qed.

(** [crawl] on the sample directory: the text file is left out, and of the
    three targets found in the first page only the other page stays. *)
Example crawl_sample_directory :
  crawl sample_findall sample_directory (World [] (λ _, 0%Z) : world float)
  = (Ok 0%nat,
     World [OCorpus [("1.html"%string, {["2.html"%string]}); ("2.html"%string, ∅)]]
           (λ _, 0%Z)).
Proof. vm_compute. reflexivity. Qed.

(** The transition tables of the two-page corpus, and their sums. *)
Example transition_AB_tables :
  result_table (transition_model 0%nat "A" DAMPING (world_AB (λ _, 0%Z)))
  = Ok [("A"%string, Float 0x1.3333333333334p-4%float);
        ("B"%string, Float 0x1.d99999999999ap-1%float)]
  ∧ result_table (transition_model 0%nat "B" DAMPING (world_AB (λ _, 0%Z)))
    = Ok [("A"%string, Float 0.5%float); ("B"%string, Float 0.5%float)]
  ∧ sum_values [("A"%string, Float 0x1.3333333333334p-4%float);
                ("B"%string, Float 0x1.d99999999999ap-1%float)]
    = Float 1%float.
Proof. vm_compute. repeat split. Qed.

(** Unlike the other two, [sample_pagerank] consults the random source:
    two sequences of draws give two different tables. *)
Example sample_pagerank_follows_draws :
  result_table (sample_pagerank 0%nat DAMPING 1 (world_AB (λ _, 0%Z)))
  = Ok [("A"%string, Float 2%float); ("B"%string, Float 0%float)]
  ∧ result_table (sample_pagerank 0%nat DAMPING 1 (world_AB (λ _, 1%Z)))
    = Ok [("A"%string, Float 1%float); ("B"%string, Float 1%float)].
Proof. vm_compute. split; reflexivity. Qed.

(** * Errors and edge cases *)

Section Failures.
Context {num : Type} `{Arith num}.
Implicit Types (corpus : dict (gset string)) (w : world num).

Lemma bind_raise {A B} (m : M num A) (k : A → M num B) w e w' :
  m w = (Raise e, w') → bind m k w = (Raise e, w').
Proof. intros Hm. unfold bind. by rewrite Hm. Qed.

Lemma bind_raise_fst {A B} (m : M num A) (k : A → M num B) w e :
  (m w).1 = Raise e → (bind m k w).1 = Raise e.
Proof. unfold bind. destruct (m w) as [[a|e'|] w']; simpl; congruence. Qed.

Lemma dict_get_None {V} (k : string) (d : dict V) :
  k ∉ dict_keys d → dict_get k d = None.
Proof.
  intros Hk. destruct (dict_get k d) as [v|] eqn:Hget; [|done].
  by apply dict_get_Some_elem in Hget.
Qed.

Lemma getitem_set_missing (l : loc) (c : dict (gset string)) (k : string) w :
  heap w !! l = Some (OCorpus c) → k ∉ dict_keys c →
  getitem_set l k w = (Raise KeyError, w).
Proof.
  intros Hl Hk. unfold getitem_set.
  rewrite (bind_ok _ _ _ _ _ (load_ok _ _ _ Hl)).
  by rewrite (dict_get_None k c Hk).
Qed.

Lemma getitem_missing (l : loc) (t : dict (number num)) (k : string) w :
  heap w !! l = Some (OTable t) → k ∉ dict_keys t →
  getitem l k w = (Raise KeyError, w).
Proof.
  intros Hl Hk. unfold getitem.
  rewrite (bind_ok _ _ _ _ _ (load_ok _ _ _ Hl)).
  by rewrite (dict_get_None k t Hk).
Qed.

Lemma truediv_zero (a : number num) w :
  truediv a 0 w = (Raise ZeroDivisionError, w).
Proof. done. Qed.

(** X1. Asked for a page that is not a key of the corpus,
    [transition_model] raises [KeyError] at [corpus[page]]: it has by then
    allocated its empty table, and nothing else has changed. *)
Theorem transition_model_missing_page w (c : loc) corpus (page : string) (d : num) :
  heap w !! c = Some (OCorpus corpus) →
  page ∉ dict_keys corpus →
  transition_model c page d w
  = (Raise KeyError, World (heap w ++ [OTable []]) (rng w)).
Proof.
  intros Hc Hpage. destruct w as [h r]; simpl in *.
  unfold transition_model.
  rewrite (bind_ok _ _ _ (length h) (World (h ++ [OTable []]) r)) by done.
  apply bind_raise. apply (getitem_set_missing c corpus); [|done].
  by apply lookup_old.
Qed.

(** [for link in links: cont[link] += share] on a table whose keys are
    [ks]: a link outside [ks] makes the loop raise [KeyError]. *)
Lemma add_links_dangling (h : list (obj num)) (r : nat → Z) (c : loc)
    corpus (page : string) (outbound : gset string) (d : num)
    (ks links : list string) (t : dict (number num)) (link : string) :
  h !! c = Some (OCorpus corpus) →
  dict_get page corpus = Some outbound →
  size outbound ≠ 0%nat →
  dict_keys t = ks →
  link ∈ links → link ∉ ks →
  (for_each links (λ link (_ : unit),
     let* old := getitem (length h) link in
     let* outbound' := getitem_set c page in
     let* p := truediv (Float d) (Z.of_nat (size outbound')) in
     setitem (length h) link (py_add old p)) tt
     (World (h ++ [OTable t]) r)).1
  = Raise KeyError.
Proof.
  intros Hc Hpage Hsize. revert t.
  induction links as [|x links IH]; intros t Hkeys Hin Hout.
  - by apply elem_of_nil in Hin.
  - simpl. destruct (decide (x ∈ ks)) as [Hx|Hx].
    + rewrite <- Hkeys in Hx.
      destruct (dict_get_is_Some x t Hx) as [v Hv].
      erewrite bind_ok.
      2:{ erewrite bind_ok; [|eapply getitem_ok; [apply lookup_own | done]].
          erewrite bind_ok; [|eapply getitem_set_ok; [by apply lookup_old | done]].
          erewrite bind_ok; [|apply truediv_ok; lia].
          apply setitem_ok, lookup_own. }
      simpl. rewrite insert_own. apply IH.
      * rewrite dict_keys_set; done.
      * apply elem_of_cons in Hin as [->|Hin]; [|done].
        rewrite Hkeys in Hx. done.
      * done.
    + erewrite bind_raise; [done|].
      apply bind_raise. eapply getitem_missing; [apply lookup_own|].
      by rewrite Hkeys.
Qed.

(** X2. When the current page has a link that is not a key of the corpus,
    [transition_model] raises [KeyError] (at [cont[link] += ...]), and the
    corpus is as it was. *)
Theorem transition_model_dangling_link w (c : loc) corpus (page : string)
    (links : gset string) (link : string) (d : num) :
  heap w !! c = Some (OCorpus corpus) →
  NoDup (dict_keys corpus) →
  dict_get page corpus = Some links →
  link ∈ links →
  link ∉ dict_keys corpus →
  (transition_model c page d w).1 = Raise KeyError
  ∧ heap (transition_model c page d w).2 !! c = Some (OCorpus corpus).
Proof.
  intros Hc Hnd Hpage Hin Hout. split.
  - destruct w as [h r]; simpl in *.
    assert (Hsize : size links ≠ 0%nat).
    { intros Hz. apply size_empty_inv in Hz. set_solver. }
    assert (HN : page_count corpus ≠ 0).
    { unfold page_count. apply dict_get_Some_elem in Hpage.
      destruct (dict_keys corpus); [by apply elem_of_nil in Hpage | simpl; lia]. }
    unfold transition_model.
    rewrite (bind_ok _ _ _ (length h) (World (h ++ [OTable []]) r)) by done.
    erewrite bind_ok; [|eapply getitem_set_ok; [by apply lookup_old | done]].
    rewrite (proj2 (Z.eqb_neq _ 0)) by lia. change (negb false) with true. cbv iota.
    erewrite bind_ok; [|eapply keys_ok; by apply lookup_old]. simpl keys_of.
    erewrite bind_ok; [|apply fill_loop with (corpus := corpus); [done | by right]].
    erewrite bind_ok; [|eapply getitem_set_ok; [by apply lookup_old | done]].
    simpl. rewrite fill_tabulate_nil by done.
    apply bind_raise_fst.
    apply (add_links_dangling h r c corpus page links d (dict_keys corpus)
             (elements links) _ link); try done.
    + apply dict_keys_tabulate.
    + by apply elem_of_elements.
  - rewrite frames_lookup; [done | apply frames_transition_model |].
    by eapply lookup_lt_Some.
Qed.
End Failures.

Section SolverEdges.
Context {num : Type} `{Arith num}.
Implicit Types (corpus : dict (gset string)) (w : world num).

(** X3. On the empty corpus [iterate_pagerank] returns the empty table
    after one pass over nothing ([count == N == 0]): no division by
    [N = 0] is ever reached. *)
Theorem iterate_pagerank_empty_corpus w (c : loc) (d : num) (fuel : nat) :
  heap w !! c = Some (OCorpus []) →
  iterate_pagerank (S fuel) c d w
  = (Ok (length (heap w)), World (heap w ++ [OTable []]) (rng w)).
Proof.
  intros Hc.
  rewrite (iterate_pagerank_run w c [] d (S fuel) Hc); [done|].
  apply NoDup_nil_2.
Qed.

(** X4. [iterate_pagerank] raises no exception, whatever the links of the
    corpus (links that lead out of the corpus included) and whatever the
    damping factor: it returns or goes on iterating. *)
Theorem iterate_pagerank_never_raises w (c : loc) corpus (d : num) (fuel : nat)
    (e : exn) :
  heap w !! c = Some (OCorpus corpus) →
  NoDup (dict_keys corpus) →
  (iterate_pagerank fuel c d w).1 ≠ Raise e.
Proof.
  intros Hc Hnd. rewrite (iterate_pagerank_run w c corpus d fuel Hc Hnd). simpl.
  by destruct (rank_iterate fuel corpus d (initial_ranks corpus)).1.
Qed.
End SolverEdges.

Section SamplerEdges.
Context {num : Type} `{Arith num}.
Implicit Types (corpus : dict (gset string)) (w : world num).

(** X5. On the empty corpus [sample_pagerank] raises [IndexError]: there
    is no page for [random.choice] to start from. *)
Theorem sample_pagerank_empty_corpus w (c : loc) (d : num) (n : Z) :
  heap w !! c = Some (OCorpus []) →
  sample_pagerank c d n w
  = (Raise IndexError, World (heap w ++ [OTable []]) (rng w)).
Proof.
  intros Hc. destruct w as [h r]; simpl in *. unfold sample_pagerank.
  rewrite (bind_ok _ _ _ (length h) (World (h ++ [OTable []]) r)) by done.
  erewrite bind_ok; [|eapply keys_ok; by apply lookup_old].
  erewrite bind_ok; [|apply fill_loop_value].
  erewrite bind_ok; [|eapply keys_ok; by apply lookup_old].
  done.
Qed.

(** The sampler up to the start of the walk: the counters are all 0 but
    for the starting page, which has 1. *)
Lemma sample_pagerank_start w (c : loc) corpus (d : num) (n : Z) :
  heap w !! c = Some (OCorpus corpus) →
  NoDup (dict_keys corpus) →
  dict_keys corpus ≠ [] →
  ∃ start, start ∈ dict_keys corpus
    ∧ sample_pagerank c d n w
      = (let* _ := for_each (range n) (sample_step c (length (heap w)) d) start in
         let* pages := keys (length (heap w)) in
         let* _ := for_each pages (λ key (_ : unit),
           let* c := getitem (length (heap w)) key in
           let* p := truediv c n in
           setitem (length (heap w)) key p) tt in
         ret (length (heap w)))
        (World (heap w ++ [OTable (counters (bump start (λ _, 0%Z)) (dict_keys corpus))])
               (λ i, rng w (S i))).
Proof.
  intros Hc Hnd Hne. destruct w as [h r]; simpl in *.
  destruct (random_choice_run (dict_keys corpus)
              (World (h ++ [OTable (counters (λ _, 0%Z) (dict_keys corpus))]) r) Hne)
    as (start & Hstart & Hchoice).
  exists start. split; [done|].
  unfold sample_pagerank.
  rewrite (bind_ok _ _ _ (length h) (World (h ++ [OTable []]) r)) by done.
  erewrite bind_ok; [|eapply keys_ok; by apply lookup_old].
  erewrite bind_ok; [|apply fill_loop_value].
  rewrite fill_tabulate_nil by done.
  erewrite bind_ok; [|eapply keys_ok; by apply lookup_old].
  erewrite bind_ok; [|apply Hchoice].
  unfold after_draw. simpl heap. simpl rng.
  by rewrite (visit_run h [] _ (λ _, 0%Z) (dict_keys corpus) start Hnd Hstart).
Qed.

Lemma range_nonpositive (n : Z) : (n ≤ 0)%Z → range n = [].
Proof. intros Hn. unfold range. by replace (Z.to_nat n) with 0%nat by lia. Qed.

(** X6. With [n = 0] and a corpus that has a page, [sample_pagerank]
    raises [ZeroDivisionError] when it divides the first counter by [n];
    the corpus is as it was. *)
Theorem sample_pagerank_zero_samples w (c : loc) corpus (d : num) :
  heap w !! c = Some (OCorpus corpus) →
  NoDup (dict_keys corpus) →
  dict_keys corpus ≠ [] →
  (sample_pagerank c d 0 w).1 = Raise ZeroDivisionError
  ∧ heap (sample_pagerank c d 0 w).2 !! c = Some (OCorpus corpus).
Proof.
  intros Hc Hnd Hne. split.
  - destruct (sample_pagerank_start w c corpus d 0 Hc Hnd Hne)
      as (start & Hstart & ->).
    rewrite range_nonpositive by lia.
    erewrite bind_ok; [|done].
    erewrite bind_ok; [|eapply keys_ok; apply (lookup_own (heap w) [])].
    simpl keys_of. unfold counters at 1. rewrite dict_keys_tabulate.
    apply bind_raise_fst.
    destruct (dict_keys corpus) as [|k ks] eqn:Hks; [done|].
    simpl for_each. apply bind_raise_fst.
    erewrite bind_ok.
    2:{ eapply getitem_ok; [apply (lookup_own (heap w) [])|].
        simpl. by rewrite decide_True. }
    done.
  - rewrite frames_lookup; [done | apply frames_sample_pagerank |].
    by eapply lookup_lt_Some.
Qed.

(** X7. With a negative [n] the loop [for i in range(n)] does nothing:
    [sample_pagerank] returns the table that gives the starting page
    [1 / n], a negative value, and every other page [0 / n]. The bound
    on [n] keeps the two int divisions where the quotient of the converted
    operands is the quotient CPython returns. *)
Theorem sample_pagerank_negative_samples w (c : loc) corpus (d : num) (n : Z) :
  heap w !! c = Some (OCorpus corpus) →
  NoDup (dict_keys corpus) →
  dict_keys corpus ≠ [] →
  (- 2 ^ 53 ≤ n)%Z →
  (n < 0)%Z →
  ∃ start, start ∈ dict_keys corpus
    ∧ result_table (sample_pagerank c d n w)
      = Ok (tabulate (λ k, Float (div (of_Z (if decide (k = start) then 1 else 0))
                                      (of_Z n)))
                     (dict_keys corpus)).
Proof.
  intros Hc Hnd Hne _ Hn.
  destruct (sample_pagerank_start w c corpus d n Hc Hnd Hne)
    as (start & Hstart & ->).
  exists start. split; [done|].
  rewrite range_nonpositive by lia.
  erewrite bind_ok; [|done].
  erewrite bind_ok; [|eapply keys_ok; apply (lookup_own (heap w) [])].
  simpl keys_of. unfold counters at 1. rewrite dict_keys_tabulate.
  erewrite bind_ok; [|apply (divide_loop (heap w) []); [done | lia]].
  unfold result_table, ret. simpl. by rewrite lookup_own.
Qed.
End SamplerEdges.

(** * Ranges of the values (exact arithmetic) *)

Section Ranges.
Local Open Scope Q_scope.
Implicit Types (corpus : dict (gset string)) (ans : dict (number Q)) (w : world Q).

Lemma dict_get_tabulate_Some {V} (f : string → V) (ks : list string)
    (k : string) (v : V) :
  dict_get k (tabulate f ks) = Some v → k ∈ ks ∧ v = f k.
Proof.
  intros Hget. assert (Hk : k ∈ ks).
  { apply dict_get_Some_elem in Hget. by rewrite dict_keys_tabulate in Hget. }
  split; [done|]. rewrite dict_get_tabulate in Hget by done. congruence.
Qed.

Lemma inject_Z_ge_1 (z : Z) : (1 ≤ z)%Z → 1 <= inject_Z z.
Proof. intros Hz. change 1 with (inject_Z 1). by rewrite <- Zle_Qle. Qed.

(** A non-negative quantity shared among [z ≥ 1] stays between 0 and
    itself. *)
Lemma Qdiv_share (x : Q) (z : Z) :
  0 <= x → (1 ≤ z)%Z → 0 <= x / inject_Z z ∧ x / inject_Z z <= x.
Proof.
  intros Hx Hz. pose proof (inject_Z_ge_1 z Hz) as Hz1.
  assert (Hpos : 0 < inject_Z z) by lra.
  split.
  - apply Qle_shift_div_l; [done|]. lra.
  - apply Qle_shift_div_r; [done|].
    rewrite <- (Qmult_1_r x) at 1.
    rewrite (Qmult_comm x 1), (Qmult_comm x (inject_Z z)).
    by apply Qmult_le_compat_r.
Qed.

Lemma Qdiv_share_any (x : Q) (z : Z) : 0 <= x → (0 ≤ z)%Z → 0 <= x / inject_Z z.
Proof.
  intros Hx Hz. destruct (decide (z = 0%Z)) as [->|Hne].
  - unfold Qdiv. change (/ inject_Z 0) with 0. lra.
  - apply Qdiv_share; [done | lia].
Qed.

(** X8. For a damping factor between 0 and 1, every value of the table
    [transition_model] returns is a probability: between 0 and 1. *)
Theorem transition_values_are_probabilities w (c : loc) corpus (page : string)
    (d : Q) :
  heap w !! c = Some (OCorpus corpus) →
  wf_corpus corpus →
  page ∈ dict_keys corpus →
  0 <= d → d <= 1 →
  ∃ t, result_table (transition_model c page d w) = Ok t
       ∧ ∀ k v, dict_get k t = Some v → 0 <= to_float v ∧ to_float v <= 1.
Proof.
  intros Hc [Hnd Hclosed] Hpage Hd0 Hd1.
  destruct (dict_get_is_Some page corpus Hpage) as [links Hlinks].
  assert (Hin : ∀ link, link ∈ links → link ∈ dict_keys corpus)
    by (intros link; apply (Hclosed page links link Hlinks)).
  rewrite (transition_model_run w c corpus page links d Hc Hlinks Hnd Hin).
  rewrite result_table_fresh. eexists. split; [done|].
  assert (HN : (1 ≤ page_count corpus)%Z).
  { unfold page_count.
    destruct (dict_keys corpus); [by apply elem_of_nil in Hpage | simpl; lia]. }
  intros k v Hget. unfold distribution in Hget.
  destruct (Z.of_nat (size links) =? 0)%Z eqn:Hsize.
  - apply dict_get_tabulate_Some in Hget as [_ ->]. simpl.
    apply (Qdiv_share 1); [lra | done].
  - apply Z.eqb_neq in Hsize.
    apply dict_get_tabulate_Some in Hget as [_ ->].
    destruct (Qdiv_share (1 - d) (page_count corpus)) as [Hb0 Hb1]; [lra | done |].
    destruct (Qdiv_share d (Z.of_nat (size links))) as [Hs0 Hs1]; [done | lia |].
    destruct (bool_decide (k ∈ links)); simpl;
      change (inject_Z 1) with 1; lra.
Qed.

Lemma to_float_py_mul (a b : number Q) :
  to_float (py_mul a b) == to_float a * to_float b.
Proof.
  destruct a as [x|x], b as [y|y]; simpl; reflexivity.
Qed.

Lemma contribute_nonneg corpus ans (key page : string) (sum : number Q) :
  nonneg_ranks ans → 0 <= to_float sum →
  0 <= to_float (contribute corpus ans key sum page).
Proof.
  intros Hans Hsum. unfold contribute.
  destruct (bool_decide _).
  - rewrite to_float_py_add. simpl.
    pose proof (Qdiv_share_any (to_float (rank_of ans page))
                  (Z.of_nat (size (links_of corpus page))) (Hans page)
                  (Nat2Z.is_nonneg _)).
    lra.
  - destruct (_ =? _)%Z; [|done].
    rewrite to_float_py_add. simpl.
    pose proof (Qdiv_share_any (to_float (rank_of ans page)) (page_count corpus)
                  (Hans page) (Nat2Z.is_nonneg _)) as Hshare.
    lra.
Qed.

Lemma contributions_nonneg corpus ans (key : string) (pages : list string)
    (sum : number Q) :
  nonneg_ranks ans → 0 <= to_float sum →
  0 <= to_float (fold_left (contribute corpus ans key) pages sum).
Proof.
  intros Hans. revert sum. induction pages as [|p pages IH]; intros sum Hsum; [done|].
  simpl. apply IH. by apply contribute_nonneg.
Qed.

(** A new rank is at least the share [(1 - d) / N] every page gets. *)
Lemma new_rank_lower corpus (d : Q) ans (key : string) :
  nonneg_ranks ans → 0 <= d →
  (1 - d) / inject_Z (page_count corpus) <= to_float (new_rank corpus d ans key).
Proof.
  intros Hans Hd. unfold new_rank.
  rewrite to_float_py_add, to_float_py_mul. simpl.
  pose proof (contributions_nonneg corpus ans key (dict_keys corpus) (Int 0) Hans)
    as Hsum.
  assert (0 <= d * to_float (fold_left (contribute corpus ans key)
                               (dict_keys corpus) (Int 0))).
  { apply Qmult_le_0_compat; [done|]. apply Hsum. apply Qle_refl. }
  change (inject_Z 1) with 1. lra.
Qed.
End Ranges.

Section SolverRanges.
Local Open Scope Q_scope.
Implicit Types (corpus : dict (gset string)) (ans : dict (number Q)) (w : world Q).

Lemma nonneg_initial_ranks corpus : nonneg_ranks (initial_ranks corpus).
Proof.
  intros p. unfold rank_of, initial_ranks.
  destruct (dict_get p _) as [v|] eqn:Hget; simpl; [|apply Qle_refl].
  apply dict_get_tabulate_Some in Hget as [_ ->]. simpl.
  apply (Qdiv_share_any 1); [lra | apply Nat2Z.is_nonneg].
Qed.

Section Step.
Variables (corpus : dict (gset string)) (d : Q).
Hypothesis Hd0 : 0 <= d.
Hypothesis Hd1 : d <= 1.

Local Abbreviation floor := ((1 - d) / inject_Z (page_count corpus)).

Lemma floor_nonneg : 0 <= floor.
Proof using Hd1.
  apply Qdiv_share_any; [lra | apply Nat2Z.is_nonneg].
Qed.

Lemma rank_step_nonneg (st : dict (number Q) * Z) (key : string) :
  nonneg_ranks st.1 → nonneg_ranks (rank_step corpus d st key).1.
Proof using Hd0 Hd1.
  intros Hst p. simpl. destruct (decide (key = p)) as [->|Hne].
  - rewrite rank_of_set_eq.
    pose proof (new_rank_lower corpus d st.1 p Hst Hd0).
    pose proof floor_nonneg. lra.
  - rewrite rank_of_set_ne by done. apply Hst.
Qed.

Lemma rank_step_floor (st : dict (number Q) * Z) (key k : string) :
  nonneg_ranks st.1 →
  key = k ∨ floor <= to_float (rank_of st.1 k) →
  floor <= to_float (rank_of (rank_step corpus d st key).1 k).
Proof using Hd0.
  intros Hst Hk. simpl. destruct (decide (key = k)) as [->|Hne].
  - rewrite rank_of_set_eq. by apply new_rank_lower.
  - rewrite rank_of_set_ne by done. by destruct Hk.
Qed.

Lemma rank_fold_floor (ks : list string) (st : dict (number Q) * Z) :
  nonneg_ranks st.1 →
  nonneg_ranks (fold_left (rank_step corpus d) ks st).1
  ∧ ∀ k, k ∈ ks ∨ floor <= to_float (rank_of st.1 k) →
      floor <= to_float (rank_of (fold_left (rank_step corpus d) ks st).1 k).
Proof using Hd0 Hd1.
  revert st. induction ks as [|key ks IH]; intros st Hst.
  - split; [done|]. intros k [Hk|Hk]; [by apply elem_of_nil in Hk | done].
  - simpl. destruct (IH (rank_step corpus d st key) (rank_step_nonneg st key Hst))
      as [Hnn Hfloor].
    split; [done|]. intros k Hk. apply Hfloor.
    destruct Hk as [Hk|Hk].
    + apply elem_of_cons in Hk as [->|Hk]; [|by left].
      right. apply rank_step_floor; [done | by left].
    + right. apply rank_step_floor; [done | by right].
Qed.

Lemma passes_nonneg (n : nat) ans :
  nonneg_ranks ans → nonneg_ranks (passes n corpus d ans).
Proof using Hd0 Hd1.
  intros Hans. induction n as [|n IH]; [done|].
  unfold passes in *. simpl. by apply rank_fold_floor.
Qed.
End Step.

(** X9. For a damping factor between 0 and 1, every rank
    [iterate_pagerank] returns is at least the share [(1 - d) / N] that
    every page receives in every pass; in particular no rank is
    negative. *)
Theorem iterate_ranks_lower_bound w (c : loc) corpus (d : Q) (fuel : nat)
    (t : dict (number Q)) :
  heap w !! c = Some (OCorpus corpus) →
  NoDup (dict_keys corpus) →
  0 <= d → d <= 1 →
  result_table (iterate_pagerank fuel c d w) = Ok t →
  ∀ k, k ∈ dict_keys corpus →
    0 <= (1 - d) / inject_Z (page_count corpus)
    ∧ (1 - d) / inject_Z (page_count corpus) <= to_float (rank_of t k).
Proof.
  intros Hc Hnd Hd0 Hd1.
  rewrite (iterate_pagerank_result w c corpus d fuel Hc Hnd).
  destruct (rank_iterate fuel corpus d (initial_ranks corpus)).1 eqn:Hok; [|done].
  intros [= <-] k Hk.
  destruct (rank_iterate_last_pass fuel corpus d _ Hok) as (n & _ & _ & ->).
  split; [by apply floor_nonneg|].
  unfold rank_pass.
  apply rank_fold_floor; [done..| |by left].
  apply passes_nonneg; [done..|]. apply nonneg_initial_ranks.
Qed.
End SolverRanges.

Section SamplerCounts.
Implicit Types (corpus : dict (gset string)) (cnt : string → Z).

Lemma sumZ_nonneg cnt (ks : list string) :
  (∀ k, 0 ≤ cnt k)%Z → (0 ≤ sumZ cnt ks)%Z.
Proof.
  intros Hcnt. induction ks as [|k ks IH]; simpl; [lia|].
  specialize (Hcnt k). lia.
Qed.

Lemma sumZ_bound cnt (ks : list string) (k : string) :
  (∀ k, 0 ≤ cnt k)%Z → k ∈ ks → (cnt k ≤ sumZ cnt ks)%Z.
Proof.
  intros Hcnt. induction ks as [|k' ks IH]; intros Hk.
  - by apply elem_of_nil in Hk.
  - simpl. pose proof (sumZ_nonneg cnt ks Hcnt).
    apply elem_of_cons in Hk as [->|Hk].
    + lia.
    + specialize (IH Hk). specialize (Hcnt k'). lia.
Qed.

(** X10. In exact arithmetic, on every well-formed corpus that has a page
    and for every [n ≥ 1], whatever the random source draws:
    [sample_pagerank] returns a table over exactly the pages of the
    corpus, whose value at each page is an integer visit count between 0
    and [n + 1] divided by [n], the counts adding up to [n + 1]. *)
Theorem sample_values_are_counts (w : world Q) (c : loc) corpus (d : Q) (n : Z) :
  heap w !! c = Some (OCorpus corpus) →
  wf_corpus corpus →
  dict_keys corpus ≠ [] →
  (0 < n)%Z →
  ∃ t cnt,
    result_table (sample_pagerank c d n w) = Ok t
    ∧ dict_keys t = dict_keys corpus
    ∧ sumZ cnt (dict_keys corpus) = (n + 1)%Z
    ∧ ∀ k, k ∈ dict_keys corpus →
        (0 ≤ cnt k ≤ n + 1)%Z
        ∧ dict_get k t = Some (Float (inject_Z (cnt k) / inject_Z n)%Q).
Proof.
  intros Hc Hwf Hne Hn.
  destruct (sample_pagerank_run w c corpus d n Hc Hwf Hne Hn
              (positive_mass_Q corpus d Hwf)) as (cnt & Hcnt & Hsum & Hres).
  eexists. exists cnt. split; [done|].
  rewrite dict_keys_tabulate. split; [done|]. split; [done|].
  intros k Hk. split.
  - split; [done|]. rewrite <- Hsum. by apply sumZ_bound.
  - by rewrite dict_get_tabulate.
Qed.
End SamplerCounts.

(** * How the functions compose *)

Section Composition.
Context {num : Type} `{Arith num}.
Implicit Types (corpus : dict (gset string)) (w : world num).

(** The corpus [crawl] builds meets what [transition_model] relies on. *)
Lemma crawl_corpus_wf (findall_href : string → list string)
    (directory : list (string * string)) :
  NoDup directory.*1 →
  wf_corpus (tabulate
    (λ f, filter (λ link, link ∈ html_names directory)
                 (raw_links findall_href directory f))
    (html_names directory)).
Proof.
  intros Hnd. split.
  - rewrite dict_keys_tabulate. unfold html_names. by apply NoDup_filter.
  - intros page links link Hget Hin.
    apply dict_get_tabulate_Some in Hget as [_ ->].
    rewrite dict_keys_tabulate. by apply elem_of_filter in Hin as [? _].
Qed.

(** X11. [crawl] followed by [transition_model]: from any [.html] file of
    the directory as current page, the transition model succeeds on the
    corpus that [crawl] has built (no [KeyError]), and returns the
    distribution of that page's outbound set. *)
Theorem crawl_then_transition_model (findall_href : string → list string)
    w (directory : list (string * string)) (page contents : string) (d : num) :
  NoDup directory.*1 →
  (page, contents) ∈ directory →
  is_html page →
  ∃ corpus links,
    (let* c := crawl findall_href directory in transition_model c page d) w
    = (Ok (S (length (heap w))),
       World (heap w ++ [OCorpus corpus; OTable (distribution corpus links d)])
             (rng w))
    ∧ dict_get page corpus = Some links
    ∧ wf_corpus corpus.
Proof.
  intros Hnd Hin Hhtml.
  pose proof (crawl_corpus_wf findall_href directory Hnd) as Hwf.
  set (corpus := tabulate
    (λ f, filter (λ link, link ∈ html_names directory)
                 (raw_links findall_href directory f))
    (html_names directory)) in *.
  assert (Hpage : page ∈ dict_keys corpus).
  { unfold corpus. rewrite dict_keys_tabulate.
    apply list_elem_of_filter. split; [done|].
    apply list_elem_of_fmap. by exists (page, contents). }
  destruct (dict_get_is_Some page corpus Hpage) as [links Hlinks].
  exists corpus, links. split; [|done].
  erewrite bind_ok; [|by apply crawl_run].
  destruct Hwf as [Hnd' Hclosed].
  erewrite (transition_model_run _ (length (heap w)) corpus page links d).
  - simpl. rewrite length_app. simpl.
    replace (length (heap w) + 1)%nat with (S (length (heap w))) by lia.
    by rewrite <- app_assoc.
  - simpl. apply lookup_own.
  - done.
  - done.
  - intros link. apply (Hclosed page links link Hlinks).
Qed.

(** [m] can only return [x]. *)
Lemma returns_bind {A B} (x : B) (m : M num A) (k : A → M num B) w b w' :
  (∀ a w0 b0 w0', k a w0 = (Ok b0, w0') → b0 = x) →
  bind m k w = (Ok b, w') → b = x.
Proof.
  intros Hk. unfold bind. destruct (m w) as [[a|e|] w0]; [|done..].
  apply Hk.
Qed.

(** What [sample_pagerank] returns is the table it allocated on entry. *)
Lemma sample_pagerank_returns w (c : loc) (d : num) (n : Z) (l : loc) w1 :
  sample_pagerank c d n w = (Ok l, w1) →
  l = length (heap w) ∧ (l < length (heap w1))%nat.
Proof.
  intros Hrun. split.
  - revert Hrun. unfold sample_pagerank, bind at 1, new_object.
    repeat (apply returns_bind; intros ? ? ? ?).
    unfold ret. congruence.
  - assert (Hlen : (length (heap w ++ [OTable (num := num) []])
                    ≤ length (heap w1))%nat).
    { revert Hrun. unfold sample_pagerank, bind at 1, new_object.
      match goal with
      | |- ?m ?w0 = _ → _ =>
          intros Hrun; assert (Hfr : frames 0 m); [|
            destruct (Hfr w0) as [_ Hle]; [simpl; lia|];
            rewrite Hrun in Hle; exact Hle]
      end.
      repeat first
        [ apply frames_ret | apply frames_keys | apply frames_getitem
        | apply frames_values | apply frames_random_choices
        | apply frames_random_choice
        | apply frames_setitem; lia
        | apply frames_truediv
        | apply frames_transition_model
        | apply frames_for_each; intros
        | apply frames_bind; [|intros] ]. }
    assert (l = length (heap w)) as ->.
    { revert Hrun. unfold sample_pagerank, bind at 1, new_object.
      repeat (apply returns_bind; intros ? ? ? ?).
      unfold ret. congruence. }
    rewrite length_app in Hlen. simpl in Hlen. lia.
Qed.

(** X12. The two estimators do not interfere. Once [sample_pagerank] has
    returned, [iterate_pagerank] run on the same corpus returns the table
    it would have returned without the sampling run, and leaves the table
    of the sampling run as it is. *)
Theorem sample_then_iterate w (c : loc) corpus (d : num) (n : Z) (fuel : nat)
    (sampled : loc) (w1 : world num) :
  heap w !! c = Some (OCorpus corpus) →
  NoDup (dict_keys corpus) →
  sample_pagerank c d n w = (Ok sampled, w1) →
  result_table (iterate_pagerank fuel c d w1)
  = result_table (iterate_pagerank fuel c d w)
  ∧ is_Some (heap w1 !! sampled)
  ∧ heap (iterate_pagerank fuel c d w1).2 !! sampled = heap w1 !! sampled.
Proof.
  intros Hc Hnd Hrun.
  assert (Hc1 : heap w1 !! c = Some (OCorpus corpus)).
  { replace w1 with (sample_pagerank c d n w).2 by by rewrite Hrun.
    rewrite frames_lookup; [done | apply frames_sample_pagerank |].
    by eapply lookup_lt_Some. }
  destruct (sample_pagerank_returns w c d n sampled w1 Hrun) as [_ Hlt].
  split; [|split].
  - by rewrite !(iterate_pagerank_result _ c corpus d fuel).
  - by apply lookup_lt_is_Some.
  - by apply frames_lookup; [apply frames_iterate_pagerank|].
Qed.

(** X13. Every call of [transition_model] builds a table of its own: a
    second call returns a reference different from the first, with the
    same contents, and leaves the table of the first call as it is. *)
Theorem transition_model_fresh_table w (c : loc) corpus (page : string) (d : num) :
  heap w !! c = Some (OCorpus corpus) →
  wf_corpus corpus →
  page ∈ dict_keys corpus →
  ∃ first second w2 t,
    (let* a := transition_model c page d in
     let* b := transition_model c page d in
     ret (a, b)) w = (Ok (first, second), w2)
    ∧ first ≠ second
    ∧ heap w2 !! first = Some (OTable t)
    ∧ heap w2 !! second = Some (OTable t).
Proof.
  intros Hc [Hnd Hclosed] Hpage.
  destruct (dict_get_is_Some page corpus Hpage) as [links Hlinks].
  assert (Hin : ∀ link, link ∈ links → link ∈ dict_keys corpus)
    by (intros link; apply (Hclosed page links link Hlinks)).
  exists (length (heap w)), (S (length (heap w))).
  do 2 eexists. split; [|split; [lia|]].
  - erewrite bind_ok;
      [|by apply (transition_model_run w c corpus page links d)].
    erewrite bind_ok.
    2:{ apply (transition_model_run _ c corpus page links d); [|done..].
        simpl. by apply lookup_old. }
    simpl. rewrite length_app. simpl.
    replace (length (heap w) + 1)%nat with (S (length (heap w))) by lia.
    reflexivity.
  - simpl. split.
    + rewrite <- app_assoc. apply lookup_own.
    + replace (S (length (heap w)))
        with (length (heap w ++ [OTable (distribution corpus links d)])).
      * apply (lookup_own _ []).
      * rewrite length_app. simpl. lia.
Qed.
End Composition.

Section CrawlFiles.
Context {num : Type} `{Arith num}.
Variable findall_href : string → list string.
Implicit Types (directory : list (string * string)).

Lemma html_names_filter directory :
  html_names (filter (λ entry, is_html entry.1) directory) = html_names directory.
Proof.
  unfold html_names. induction directory as [|[f contents] directory IH]; [done|].
  rewrite filter_cons. cbn [fst]. destruct (decide (is_html f)) as [Hf|Hf].
  - rewrite !fmap_cons. cbn [fst]. rewrite !filter_cons_True by done.
    by rewrite IH.
  - rewrite fmap_cons. cbn [fst]. by rewrite filter_cons_False.
Qed.

Lemma dict_get_filter_html directory (f : string) :
  is_html f →
  dict_get f (filter (λ entry, is_html entry.1) directory) = dict_get f directory.
Proof.
  intros Hf. induction directory as [|[f' contents] directory IH]; [done|].
  rewrite filter_cons. cbn [fst]. destruct (decide (is_html f')) as [Hf'|Hf'].
  - cbn [dict_get]. by rewrite IH.
  - rewrite IH. cbn [dict_get]. rewrite decide_False; [done|]. by intros ->.
Qed.

Lemma NoDup_filter_names directory :
  NoDup directory.*1 → NoDup (filter (λ entry, is_html entry.1) directory).*1.
Proof.
  induction directory as [|[f contents] directory IH]; [done|].
  rewrite fmap_cons. cbn [fst]. intros Hnd. apply NoDup_cons in Hnd as [Hnin Hnd].
  rewrite filter_cons. cbn [fst]. destruct (decide (is_html f)); [|by apply IH].
  rewrite fmap_cons. cbn [fst]. apply NoDup_cons. split; [|by apply IH].
  intros Hin. apply Hnin.
  apply list_elem_of_fmap in Hin as ([f' c'] & -> & Hin).
  apply list_elem_of_filter in Hin as [_ Hin].
  apply list_elem_of_fmap. by exists (f', c').
Qed.

(** X14. Files whose name does not end in [.html] have no influence on
    what [crawl] does: with or without them in the directory, it builds
    the same corpus. *)
Theorem crawl_ignores_other_files (w : world num) directory :
  NoDup directory.*1 →
  crawl findall_href (filter (λ entry, is_html entry.1) directory) w
  = crawl findall_href directory w.
Proof.
  intros Hnd.
  rewrite (crawl_run findall_href w _ (NoDup_filter_names directory Hnd)).
  rewrite (crawl_run findall_href w directory Hnd).
  rewrite html_names_filter.
  erewrite (tabulate_ext _ (λ f, filter (λ link, link ∈ html_names directory)
                                   (raw_links findall_href directory f))); [done|].
  intros f Hf.
  unfold raw_links. rewrite dict_get_filter_html; [done|].
  by apply list_elem_of_filter in Hf as [? _].
Qed.
End CrawlFiles.

(** * The solver need not terminate *)

Section Trapped.
Context {num : Type} `{Arith num}.
Implicit Types (corpus : dict (gset string)) (ans : dict (number num)).

(** If the tables a run goes through stay in a set in which no pass counts
    every page, the run never returns. *)
Lemma rank_iterate_trapped corpus (d : num) (trap : dict (number num) → Prop) :
  (∀ t, trap t →
     ((rank_pass corpus d t).2 =? page_count corpus)%Z = false
     ∧ trap (rank_pass corpus d t).1) →
  ∀ fuel t, trap t → (rank_iterate fuel corpus d t).1 = false.
Proof.
  intros Htrap. induction fuel as [|fuel IH]; intros t Ht; [done|].
  simpl. destruct (Htrap t Ht) as [-> Hnext]. by apply IH.
Qed.
End Trapped.

(** X15. Termination is not guaranteed for valid inputs. On the
    well-formed four-page corpus [corpus_swing] with damping factor 1.0,
    after the first pass the ranks of c and d swap at every pass (0.25
    and 0.375), so no pass ever counts every page: [iterate_pagerank]
    returns for no bound on the number of passes. *)
Theorem iterate_pagerank_may_not_terminate (fuel : nat) (draws : nat → Z) :
  wf_corpus corpus_swing
  ∧ result_table (iterate_pagerank fuel 0%nat 1%float
                    (World [OCorpus corpus_swing] draws))
    = OutOfFuel.
Proof.
  split; [apply wf_corpusb_true; vm_compute; reflexivity|].
  rewrite (iterate_pagerank_result _ 0%nat corpus_swing);
    [|done|apply (bool_decide_unpack _); vm_compute; exact I].
  set (s0 := initial_ranks (num := float) corpus_swing).
  set (s1 := (rank_pass corpus_swing 1%float s0).1).
  set (s2 := (rank_pass corpus_swing 1%float s1).1).
  rewrite (rank_iterate_trapped corpus_swing 1%float
             (λ t, t = s0 ∨ t = s1 ∨ t = s2)); [done| |by left].
  intros t [-> | [-> | ->]].
  - split; [vm_compute; reflexivity|]. right. by left.
  - split; [vm_compute; reflexivity|]. right. by right.
  - split; [vm_compute; reflexivity|]. right. left. vm_compute. reflexivity.
Qed.

(** * The entry point *)

Section PrintingRun.
Context {num : Type} `{Arith num}.

Lemma bind_o_ok {A B} (m : MO num A) (k : A → MO num B) w a out w' :
  m w = ((Ok a, out), w') →
  bind_o m k w = ((k a w').1.1, out ++ (k a w').1.2, (k a w').2).
Proof.
  intros Hm. unfold bind_o. rewrite Hm. by destruct (k a w') as [[o out'] w''].
Qed.

Lemma bind_o_raise {A B} (m : MO num A) (k : A → MO num B) w e out w' :
  m w = ((Raise e, out), w') → bind_o m k w = ((Raise e, out), w').
Proof. intros Hm. unfold bind_o. by rewrite Hm. Qed.

Lemma quiet_run {A} (m : M num A) w o w' :
  m w = (o, w') → quiet m w = ((o, []), w').
Proof. intros Hm. unfold quiet. by rewrite Hm. Qed.
End PrintingRun.

Lemma string_le_total : Total string_le.
Proof. intros s1 s2. apply String.leb_total. Qed.

(** [sorted] lists the same pages, in increasing order. *)
Lemma sorted_spec (pages : list string) :
  Sorted string_le (sorted pages) ∧ sorted pages ≡ₚ pages.
Proof.
  pose proof string_le_total.
  split; [apply Sorted_merge_sort, _ | apply merge_sort_Permutation].
Qed.

Section MainRun.
Variable findall_href : string → list string.
Variable listdir : string → list (string * string).
Variable format_4f : number float → string.

Lemma print_lines_run (l : loc) (t : dict (number float)) (pages : list string)
    (w : world float) :
  heap w !! l = Some (OTable t) →
  (∀ page, page ∈ pages → page ∈ dict_keys t) →
  for_each_o pages (λ page,
    let+ rank := quiet (getitem l page) in
    print (rank_line format_4f page rank)) w
  = ((Ok tt, (λ page, rank_line format_4f page (rank_of t page)) <$> pages), w).
Proof.
  intros Hl. induction pages as [|page pages IH]; intros Hsub; [done|].
  destruct (dict_get_is_Some page t) as [v Hv].
  { apply Hsub, list_elem_of_here. }
  simpl for_each_o.
  erewrite bind_o_ok.
  2:{ erewrite bind_o_ok; [|apply quiet_run; by eapply getitem_ok].
      reflexivity. }
  change ((print (rank_line format_4f page v) w).2) with w.
  rewrite IH by (intros p Hp; by apply Hsub, list_elem_of_further).
  simpl. unfold rank_of. by rewrite Hv.
Qed.

(** [print_ranks] prints one line for each key of the table, in the order
    of [sorted], and changes nothing. *)
Lemma print_ranks_run (l : loc) (t : dict (number float)) (w : world float) :
  heap w !! l = Some (OTable t) →
  print_ranks format_4f l w
  = ((Ok tt, (λ page, rank_line format_4f page (rank_of t page))
               <$> sorted (dict_keys t)), w).
Proof.
  intros Hl. unfold print_ranks.
  erewrite bind_o_ok; [|apply quiet_run; by eapply keys_ok].
  cbv beta. simpl keys_of. rewrite print_lines_run with (t := t); [done..|].
  intros page Hpage. by rewrite (proj2 (sorted_spec (dict_keys t))) in Hpage.
Qed.
End MainRun.

Lemma positive_massb_true {num : Type} `{Arith num}
    (corpus : dict (gset string)) (d : num) :
  positive_massb corpus d = true → positive_mass corpus d.
Proof.
  unfold positive_massb. intros Hall page links Hget.
  rewrite forallb_forall in Hall.
  apply dict_get_Some_entry, list_elem_of_In in Hget.
  specialize (Hall _ Hget). simpl in Hall.
  apply andb_true_iff in Hall as [Hpos Hfin].
  split; [by apply negb_true_iff in Hpos | done].
Qed.

Section MainTheorems.
Variable findall_href : string → list string.
Variable listdir : string → list (string * string).
Variable format_4f : number float → string.

Local Abbreviation run_main := (main findall_href listdir format_4f).

(** X16. Given a directory without [.html] files, [main] ends with the
    [IndexError] of [sample_pagerank] and has printed nothing: the
    empty corpus and the empty table of counters are all it built. *)
Theorem main_without_pages (argv : list string) (fuel : nat) (w : world float) :
  length argv = 2%nat →
  NoDup (listdir (nth 1 argv ""%string)).*1 →
  html_names (listdir (nth 1 argv ""%string)) = [] →
  run_main argv fuel w
  = ((Raise IndexError, []),
     World (heap w ++ [OCorpus []; OTable []]) (rng w)).
Proof.
  intros Hargv Hnd Hnone. unfold main. rewrite Hargv.
  change (negb (2 =? 2)%nat) with false. cbv iota.
  erewrite bind_o_ok; [|apply quiet_run; by apply crawl_run].
  cbv beta. rewrite Hnone. simpl tabulate.
  erewrite bind_o_raise.
  2:{ apply quiet_run. unfold sample_pagerank.
      rewrite (bind_ok _ _ _ (length (heap w ++ [OCorpus []]))
                 (World ((heap w ++ [OCorpus []]) ++ [OTable []]) (rng w)))
        by done.
      erewrite bind_ok; [|eapply keys_ok; apply lookup_old, lookup_own].
      erewrite bind_ok; [|apply fill_loop_value].
      erewrite bind_ok; [|eapply keys_ok; apply lookup_old, lookup_own].
      reflexivity. }
  simpl. by rewrite <- app_assoc.
Qed.

(** X17. When the directory has a page, every transition table has
    positive weight and the solver converges within the fuel, [main]
    finishes and prints, in this order: the heading of the sampling, one
    line for each page in the order of [sorted] with the page's share
    of the 10001 visits counted over 10000, the heading of the iteration,
    and one line for each page in the same order with the rank the solver
    stopped at. *)
Theorem main_prints_both_rankings (argv : list string) (fuel : nat)
    (w : world float) :
  length argv = 2%nat →
  NoDup (listdir (nth 1 argv ""%string)).*1 →
  html_names (listdir (nth 1 argv ""%string)) ≠ [] →
  positive_massb (crawled findall_href (listdir (nth 1 argv ""%string)))
                 DAMPING = true →
  (rank_iterate fuel (crawled findall_href (listdir (nth 1 argv ""%string)))
     DAMPING
     (initial_ranks (crawled findall_href (listdir (nth 1 argv ""%string))))).1
  = true →
  ∃ cnt : string → Z,
    (∀ page, 0 ≤ cnt page)%Z
    ∧ sumZ cnt (html_names (listdir (nth 1 argv ""%string))) = 10001%Z
    ∧ (run_main argv fuel w).1
      = (Ok Finished,
         "PageRank Results from Sampling (n = 10000)"%string
         :: ((λ page, rank_line format_4f page
                        (Float (div (of_Z (cnt page)) (of_Z 10000))))
             <$> sorted (html_names (listdir (nth 1 argv ""%string))))
         ++ "PageRank Results from Iteration"%string
         :: ((λ page, rank_line format_4f page
                        (rank_of
                           (rank_iterate fuel
                              (crawled findall_href (listdir (nth 1 argv ""%string)))
                              DAMPING
                              (initial_ranks
                                 (crawled findall_href
                                    (listdir (nth 1 argv ""%string))))).2
                           page))
             <$> sorted (html_names (listdir (nth 1 argv ""%string))))).
Proof.
  set (directory := listdir (nth 1 argv ""%string)).
  set (corpus := crawled findall_href directory).
  intros Hargv Hnd Hne Hmass Hconv.
  pose proof (crawl_corpus_wf findall_href directory Hnd) as Hwf.
  fold (crawled findall_href directory) in Hwf. fold corpus in Hwf.
  assert (Hkeys : dict_keys corpus = html_names directory).
  { unfold corpus, crawled. apply dict_keys_tabulate. }
  set (w1 := World (heap w ++ [OCorpus corpus]) (rng w)).
  assert (Hc : heap w1 !! length (heap w) = Some (OCorpus corpus)).
  { apply lookup_own. }
  destruct (sample_pagerank_run w1 (length (heap w)) corpus DAMPING SAMPLES)
    as (cnt & Hcnt & Hsum & Hres); [done|done|by rewrite Hkeys|done| |].
  { by apply positive_massb_true. }
  exists cnt. split; [done|]. split; [by rewrite <- Hkeys|].
  pose proof (frames_lookup (sample_pagerank (length (heap w)) DAMPING SAMPLES)
                w1 (length (heap w))) as Hkept.
  destruct (sample_pagerank (length (heap w)) DAMPING SAMPLES w1)
    as [[sampled| |] w2] eqn:Hsample; [|done..].
  unfold result_table in Hres. simpl in Hres, Hkept.
  destruct (heap w2 !! sampled) as [[|t]|] eqn:Hsampled; [done| |done].
  injection Hres as ->.
  assert (Hc2 : heap w2 !! length (heap w) = Some (OCorpus corpus)).
  { etrans; [apply Hkept|apply lookup_own].
    - by apply frames_sample_pagerank.
    - rewrite length_app. simpl. lia. }
  unfold main. rewrite Hargv.
  change (negb (2 =? 2)%nat) with false. cbv iota.
  erewrite bind_o_ok; [|apply quiet_run; by apply crawl_run].
  cbv beta. fold directory. fold (crawled findall_href directory).
  fold corpus. fold w1.
  erewrite bind_o_ok; [|apply quiet_run; exact Hsample].
  cbv beta.
  erewrite bind_o_ok; [|reflexivity]. cbv beta.
  erewrite bind_o_ok; [|by apply print_ranks_run]. cbv beta.
  erewrite bind_o_ok.
  2:{ apply quiet_run. rewrite (iterate_pagerank_run w2 _ corpus); [|done|apply Hwf].
      rewrite Hconv. reflexivity. }
  cbv beta.
  erewrite bind_o_ok; [|reflexivity]. cbv beta.
  erewrite bind_o_ok; [|apply print_ranks_run; apply lookup_own]. cbv beta.
  simpl. rewrite dict_keys_tabulate, dict_keys_rank_iterate, Hkeys
    by apply dict_keys_tabulate.
  f_equal. f_equal. rewrite app_nil_r. f_equal.
  apply list_fmap_ext. intros i page Hpage. f_equal.
  apply list_elem_of_lookup_2 in Hpage.
  rewrite (proj2 (sorted_spec _)) in Hpage.
  unfold rank_of. by rewrite dict_get_tabulate.
Qed.

End MainTheorems.

(** * The further properties on concrete inputs *)

Lemma transition_model_missing_page_witness :
  transition_model 0%nat "C" DAMPING (world_AB (λ _, 0%Z))
  = (Raise KeyError,
     World (heap (world_AB (λ _, 0%Z)) ++ [OTable []])
           (rng (world_AB (λ _, 0%Z)))).
Proof.
  apply (transition_model_missing_page (world_AB (λ _, 0%Z)) 0%nat corpus_AB
           "C" DAMPING).
  - reflexivity.
  - apply (bool_decide_unpack _). vm_compute. exact I.
Defined.

Lemma transition_model_dangling_link_witness :
  (transition_model 0%nat "A" DAMPING
     (World [OCorpus corpus_dangling] (λ _, 0%Z))).1 = Raise KeyError
  ∧ heap (transition_model 0%nat "A" DAMPING
            (World [OCorpus corpus_dangling] (λ _, 0%Z))).2 !! 0%nat
    = Some (OCorpus corpus_dangling).
Proof.
  apply (transition_model_dangling_link
           (World [OCorpus corpus_dangling] (λ _, 0%Z)) 0%nat corpus_dangling
           "A" {["Z"%string]} "Z" DAMPING).
  - reflexivity.
  - apply (bool_decide_unpack _). vm_compute. exact I.
  - reflexivity.
  - apply (bool_decide_unpack _). vm_compute. exact I.
  - apply (bool_decide_unpack _). vm_compute. exact I.
Defined.

Lemma iterate_pagerank_empty_corpus_witness :
  iterate_pagerank 1 0%nat DAMPING (World [OCorpus []] (λ _, 0%Z))
  = (Ok (length (heap (World [OCorpus []] (λ _, 0%Z) : world float))),
     World (heap (World [OCorpus []] (λ _, 0%Z)) ++ [OTable []])
           (rng (World [OCorpus []] (λ _, 0%Z) : world float))).
Proof.
  apply (iterate_pagerank_empty_corpus (World [OCorpus []] (λ _, 0%Z)) 0%nat
           DAMPING 0).
  reflexivity.
Defined.

Lemma iterate_pagerank_never_raises_witness :
  (iterate_pagerank 20 0%nat DAMPING
     (World [OCorpus corpus_dangling] (λ _, 0%Z))).1 ≠ Raise KeyError.
Proof.
  apply (iterate_pagerank_never_raises
           (World [OCorpus corpus_dangling] (λ _, 0%Z)) 0%nat corpus_dangling
           DAMPING 20 KeyError).
  - reflexivity.
  - apply (bool_decide_unpack _). vm_compute. exact I.
Defined.

Lemma sample_pagerank_empty_corpus_witness :
  sample_pagerank 0%nat DAMPING 3 (World [OCorpus []] (λ _, 0%Z))
  = (Raise IndexError,
     World (heap (World [OCorpus []] (λ _, 0%Z)) ++ [OTable []])
           (rng (World [OCorpus []] (λ _, 0%Z) : world float))).
Proof.
  apply (sample_pagerank_empty_corpus (World [OCorpus []] (λ _, 0%Z)) 0%nat
           DAMPING 3).
  reflexivity.
Defined.

Lemma sample_pagerank_zero_samples_witness :
  (sample_pagerank 0%nat DAMPING 0 (world_AB (λ _, 0%Z))).1
  = Raise ZeroDivisionError
  ∧ heap (sample_pagerank 0%nat DAMPING 0 (world_AB (λ _, 0%Z))).2 !! 0%nat
    = Some (OCorpus corpus_AB).
Proof.
  apply (sample_pagerank_zero_samples (world_AB (λ _, 0%Z)) 0%nat corpus_AB
           DAMPING).
  - reflexivity.
  - apply (bool_decide_unpack _). vm_compute. exact I.
  - vm_compute. discriminate.
Defined.

Lemma sample_pagerank_negative_samples_witness :
  ∃ start, start ∈ dict_keys corpus_AB
    ∧ result_table (sample_pagerank 0%nat DAMPING (-3) (world_AB (λ _, 0%Z)))
      = Ok (tabulate
              (λ k, Float (div (of_Z (if decide (k = start) then 1 else 0))
                               (of_Z (-3))))
              (dict_keys corpus_AB)).
Proof.
  apply (sample_pagerank_negative_samples (world_AB (λ _, 0%Z)) 0%nat
           corpus_AB DAMPING (-3)).
  - reflexivity.
  - apply (bool_decide_unpack _). vm_compute. exact I.
  - vm_compute. discriminate.
  - vm_compute. discriminate.
  - lia.
Defined.

Lemma transition_values_are_probabilities_witness :
  ∃ t, result_table (transition_model 0%nat "A" (85 # 100)
                       (world_AB_exact (λ _, 0%Z))) = Ok t
       ∧ ∀ k v, dict_get k t = Some v →
           (0 <= to_float v)%Q ∧ (to_float v <= 1)%Q.
Proof.
  apply (transition_values_are_probabilities (world_AB_exact (λ _, 0%Z)) 0%nat
           corpus_AB "A" (85 # 100)).
  - reflexivity.
  - apply wf_corpusb_true. vm_compute. reflexivity.
  - apply (bool_decide_unpack _). vm_compute. exact I.
  - unfold Qle. simpl. lia.
  - unfold Qle. simpl. lia.
Defined.

Lemma iterate_ranks_lower_bound_witness :
  (0 <= (1 - (85 # 100)) / inject_Z (page_count corpus_A))%Q
  ∧ ((1 - (85 # 100)) / inject_Z (page_count corpus_A)
     <= to_float
          (rank_of (rank_iterate 3 corpus_A (85 # 100)
                      (initial_ranks corpus_A)).2 "A"))%Q.
Proof.
  apply (iterate_ranks_lower_bound
           (World [OCorpus corpus_A] (λ _, 0%Z) : world Q) 0%nat corpus_A
           (85 # 100) 3
           (rank_iterate 3 corpus_A (85 # 100) (initial_ranks corpus_A)).2).
  - reflexivity.
  - apply (bool_decide_unpack _). vm_compute. exact I.
  - unfold Qle. simpl. lia.
  - unfold Qle. simpl. lia.
  - vm_compute. reflexivity.
  - apply (bool_decide_unpack _). vm_compute. exact I.
Defined.

Lemma sample_values_are_counts_witness :
  ∃ t cnt,
    result_table (sample_pagerank 0%nat (85 # 100) 3
                    (world_AB_exact (λ _, 0%Z))) = Ok t
    ∧ dict_keys t = dict_keys corpus_AB
    ∧ sumZ cnt (dict_keys corpus_AB) = (3 + 1)%Z
    ∧ ∀ k, k ∈ dict_keys corpus_AB →
        (0 ≤ cnt k ≤ 3 + 1)%Z
        ∧ dict_get k t = Some (Float (inject_Z (cnt k) / inject_Z 3)%Q).
Proof.
  apply (sample_values_are_counts (world_AB_exact (λ _, 0%Z)) 0%nat corpus_AB
           (85 # 100) 3).
  - reflexivity.
  - apply wf_corpusb_true. vm_compute. reflexivity.
  - vm_compute. discriminate.
  - lia.
Defined.

Lemma crawl_then_transition_model_witness :
  ∃ corpus links,
    (let* c := crawl sample_findall sample_directory in
     transition_model c "1.html" DAMPING) (World [] (λ _, 0%Z))
    = (Ok (S (length (heap (World [] (λ _, 0%Z) : world float)))),
       World (heap (World [] (λ _, 0%Z))
              ++ [OCorpus corpus; OTable (distribution corpus links DAMPING)])
             (rng (World [] (λ _, 0%Z) : world float)))
    ∧ dict_get "1.html" corpus = Some links
    ∧ wf_corpus corpus.
Proof.
  apply (crawl_then_transition_model sample_findall (World [] (λ _, 0%Z))
           sample_directory "1.html" "one" DAMPING).
  - apply (bool_decide_unpack _). vm_compute. exact I.
  - apply (bool_decide_unpack _). vm_compute. exact I.
  - reflexivity.
Defined.

Lemma sample_then_iterate_witness :
  result_table (iterate_pagerank 20 0%nat DAMPING
                  (sample_pagerank 0%nat DAMPING 3 (world_AB (λ _, 0%Z))).2)
  = result_table (iterate_pagerank 20 0%nat DAMPING (world_AB (λ _, 0%Z)))
  ∧ is_Some (heap (sample_pagerank 0%nat DAMPING 3 (world_AB (λ _, 0%Z))).2
             !! 1%nat)
  ∧ heap (iterate_pagerank 20 0%nat DAMPING
            (sample_pagerank 0%nat DAMPING 3 (world_AB (λ _, 0%Z))).2).2
    !! 1%nat
    = heap (sample_pagerank 0%nat DAMPING 3 (world_AB (λ _, 0%Z))).2 !! 1%nat.
Proof.
  apply (sample_then_iterate (world_AB (λ _, 0%Z)) 0%nat corpus_AB DAMPING 3 20
           1%nat (sample_pagerank 0%nat DAMPING 3 (world_AB (λ _, 0%Z))).2).
  - reflexivity.
  - apply (bool_decide_unpack _). vm_compute. exact I.
  - vm_compute. reflexivity.
Defined.

Lemma transition_model_fresh_table_witness :
  ∃ first second w2 t,
    (let* a := transition_model 0%nat "A" DAMPING in
     let* b := transition_model 0%nat "A" DAMPING in
     ret (a, b)) (world_AB (λ _, 0%Z)) = (Ok (first, second), w2)
    ∧ first ≠ second
    ∧ heap w2 !! first = Some (OTable t)
    ∧ heap w2 !! second = Some (OTable t).
Proof.
  apply (transition_model_fresh_table (world_AB (λ _, 0%Z)) 0%nat corpus_AB
           "A" DAMPING).
  - reflexivity.
  - apply wf_corpusb_true. vm_compute. reflexivity.
  - apply (bool_decide_unpack _). vm_compute. exact I.
Defined.

Lemma crawl_ignores_other_files_witness :
  crawl sample_findall (filter (λ entry, is_html entry.1) sample_directory)
    (World [] (λ _, 0%Z) : world float)
  = crawl sample_findall sample_directory (World [] (λ _, 0%Z)).
Proof.
  apply (crawl_ignores_other_files sample_findall (World [] (λ _, 0%Z))
           sample_directory).
  apply (bool_decide_unpack _). vm_compute. exact I.
Defined.

Lemma main_without_pages_witness :
  main sample_findall (λ _, notes_directory) (λ _, "0.0000"%string)
    ["pagerank.py"; "notes"]%string 10 (World [] (λ _, 0%Z))
  = ((Raise IndexError, []),
     World (heap (World [] (λ _, 0%Z) : world float)
            ++ [OCorpus []; OTable []])
           (rng (World [] (λ _, 0%Z) : world float))).
Proof.
  apply (main_without_pages sample_findall (λ _, notes_directory)
           (λ _, "0.0000"%string) ["pagerank.py"; "notes"]%string 10
           (World [] (λ _, 0%Z))).
  - reflexivity.
  - apply (bool_decide_unpack _). vm_compute. exact I.
  - reflexivity.
Defined.

Lemma main_prints_both_rankings_witness :
  ∃ cnt : string → Z,
    (∀ page, 0 ≤ cnt page)%Z
    ∧ sumZ cnt (html_names sample_directory) = 10001%Z
    ∧ (main sample_findall (λ _, sample_directory) (λ _, "0.0000"%string)
         ["pagerank.py"; "corpus0"]%string 100 (World [] (λ _, 0%Z))).1
      = (Ok Finished,
         "PageRank Results from Sampling (n = 10000)"%string
         :: ((λ page, rank_line (λ _, "0.0000"%string) page
                        (Float (div (of_Z (cnt page)) (of_Z 10000))))
             <$> sorted (html_names sample_directory))
         ++ "PageRank Results from Iteration"%string
         :: ((λ page, rank_line (λ _, "0.0000"%string) page
                        (rank_of
                           (rank_iterate 100
                              (crawled sample_findall sample_directory)
                              DAMPING
                              (initial_ranks
                                 (crawled sample_findall sample_directory))).2
                           page))
             <$> sorted (html_names sample_directory))).
Proof.
  apply (main_prints_both_rankings sample_findall (λ _, sample_directory)
           (λ _, "0.0000"%string) ["pagerank.py"; "corpus0"]%string 100
           (World [] (λ _, 0%Z))).
  - reflexivity.
  - apply (bool_decide_unpack _). vm_compute. exact I.
  - vm_compute. discriminate.
  - vm_compute. reflexivity.
  - vm_compute. reflexivity.
Defined.
